(** * artemis.experiments.experiments

    A shallow embedding of [src/artemis/experiments/experiments.py]:
    the naming of variants, the tree of [Experiment] objects, the global
    experiment library, the run life cycle and the record queries,
    followed by the properties of the specification that were settled on
    them.

    Python objects that are shared and mutated ([Experiment] nodes, run
    records, the module globals) live in an explicit store, the [World];
    references are indices into it.  Functions that can raise return a
    [result]; functions that also mutate the store are computations of
    the monad [M]. *)

From stdpp Require Import base list strings sorting pretty.

Local Open Scope Z_scope.

(* ================================================================== *)
(** ** Python values, exceptions and dictionaries *)
(* ================================================================== *)

(** The Python values that flow through keyword arguments. *)
Inductive pyval : Type :=
  | PyNone
  | PyBool (b : bool)
  | PyInt (n : Z)
  | PyStr (s : string).

(** [str(v)], which is also what ['{}'.format(v)] renders. *)
Definition str (v : pyval) : string :=
  match v with
  | PyNone => "None"
  | PyBool true => "True"
  | PyBool false => "False"
  | PyInt n => pretty n
  | PyStr s => s
  end.

(** Truth value of [v] in a boolean context ([if v], [not v]). *)
Definition truthy (v : pyval) : bool :=
  match v with
  | PyNone => false
  | PyBool b => b
  | PyInt n => negb (n =? 0)
  | PyStr s => negb (String.eqb s "")
  end.

(** [v is None] *)
Definition is_None (v : pyval) : bool :=
  match v with PyNone => true | _ => false end.

(** The exceptions that occur.  [KeyboardInterrupt] and [SystemExit]
    derive from [BaseException] only; every other one derives from
    [Exception].  [Exception cls msg] stands for any further class
    derived from [Exception] (ValueError, ...), and for the plain
    [Exception] raised by [get_latest_record]. *)
Inductive exn : Type :=
  | KeyboardInterrupt
  | SystemExit
  | AssertionError (msg : string)
  | KeyError (key : string)
  | TypeError (msg : string)
  | ExperimentNotFoundError (experiment_id : string)
  | Exception (cls msg : string).

(** [isinstance(e, KeyboardInterrupt)]: what [except KeyboardInterrupt]
    catches. *)
Definition isinstance_KeyboardInterrupt (e : exn) : bool :=
  match e with KeyboardInterrupt => true | _ => false end.

(** [isinstance(e, Exception)]: what [except Exception] catches. *)
Definition isinstance_Exception (e : exn) : bool :=
  match e with
  | KeyboardInterrupt | SystemExit => false
  | _ => true
  end.

(** Outcome of a call: a returned value or a raised exception. *)
Inductive result (A : Type) : Type :=
  | Ok (a : A)
  | Raise (e : exn).
Arguments Ok {A} a.
Arguments Raise {A} e.

Definition result_bind {A B} (r : result A) (f : A -> result B) : result B :=
  match r with
  | Ok a => f a
  | Raise e => Raise e
  end.

(** A dictionary, in iteration order.  For [OrderedDict] this is the
    insertion order; for a plain [dict] of keyword arguments it is
    whatever order the interpreter iterates in.  Keys are unique. *)
Abbreviation dict V := (list (string * V)).

Section Dict.
Context {V : Type}.

(** [d.keys()] *)
Definition keys (d : dict V) : list string := d.*1.

(** [d.values()] *)
Definition values (d : dict V) : list V := d.*2.

(** [d.get(k)] *)
Fixpoint dict_get (d : dict V) (k : string) : option V :=
  match d with
  | [] => None
  | (k', v) :: d' => if String.eqb k' k then Some v else dict_get d' k
  end.

(** [d[k]], raising [KeyError] on a missing key *)
Definition getitem (d : dict V) (k : string) : result V :=
  match dict_get d k with
  | Some v => Ok v
  | None => Raise (KeyError k)
  end.

(** [k in d] *)
Definition contains (d : dict V) (k : string) : bool :=
  bool_decide (is_Some (dict_get d k)).

(** [d[k] = v]: a present key keeps its position and takes the new
    value, a new key goes to the end. *)
Fixpoint setitem (d : dict V) (k : string) (v : V) : dict V :=
  match d with
  | [] => [(k, v)]
  | (k', v') :: d' =>
      if String.eqb k' k then (k', v) :: d' else (k', v') :: setitem d' k v
  end.

(** [OrderedDict(pairs)] *)
Definition OrderedDict (pairs : list (string * V)) : dict V :=
  foldl (fun d kv => setitem d kv.1 kv.2) [] pairs.

(** [d.update(d')], as [functools.partial] merges keywords *)
Definition update (d d' : dict V) : dict V :=
  foldl (fun d kv => setitem d kv.1 kv.2) d d'.
End Dict.

(** [sorted(l)] on strings: a stable merge sort by code points. *)
Definition sorted (l : list string) : list string := merge_sort String.le l.

(** [sep.join(l)] *)
Fixpoint join (sep : string) (l : list string) : string :=
  match l with
  | [] => ""
  | [s] => s
  | s :: l' => s +:+ sep +:+ join sep l'
  end.

(** [[f(x) for x in l]] where [f] may raise: stops at the first raise. *)
Fixpoint comprehension {A B} (f : A -> result B) (l : list A) : result (list B) :=
  match l with
  | [] => Ok []
  | x :: l' =>
      result_bind (f x) (fun y =>
      result_bind (comprehension f l') (fun ys => Ok (y :: ys)))
  end.

(* ================================================================== *)
(** ** Identifier naming *)
(* ================================================================== *)

(** ['{}={}'.format(argname, value)] *)
Definition format_item (argname : string) (value : pyval) : string :=
  argname +:+ "=" +:+ str value.

(** [_kwargs_to_experiment_name], line 351. *)
Definition _kwargs_to_experiment_name (kwargs : dict pyval) : result string :=
  result_bind
    (comprehension
       (fun argname =>
          result_bind (getitem kwargs argname) (fun v => Ok (format_item argname v)))
       (sorted (keys kwargs)))
    (fun items => Ok (join "," items)).

(** The name as the specification words it: the [key=value] items of the
    dictionary, by ascending key, joined with commas. *)
Definition name_of_items (items : list (string * pyval)) : string :=
  join "," (map (fun kv => format_item kv.1 kv.2) items).

Definition key_le (a b : string * pyval) : Prop := String.le a.1 b.1.

(* ================================================================== *)
(** ** The store *)
(* ================================================================== *)

(** A reference to an object of the store: its index. *)
Abbreviation ref := nat.

(** A callable: a root function, named, under a chain of
    [functools.partial] applications. *)
Inductive callable : Type :=
  | Function (__name__ : string)
  | Partial (f : callable) (kwargs : dict pyval).

(** [get_partial_chain(f)[0]] with its [__name__] *)
Fixpoint root_function_name (f : callable) : string :=
  match f with
  | Function n => n
  | Partial g _ => root_function_name g
  end.

(** The [Experiment] object. *)
Record Experiment : Type := mkExperiment {
  name : string;
  function : callable;
  _display_function : option string;
  _one_liner_results : option string;
  _comparison_function : option string;
  variants : dict ref;
  _notes : list string;
  is_root : bool
}.

(** The three properties, lines 46 to 56: each one returns
    [self._display_function]. *)
Definition display_function (self : Experiment) : option string :=
  _display_function self.
Definition one_liner_function (self : Experiment) : option string :=
  _display_function self.
Definition comparison_function (self : Experiment) : option string :=
  _display_function self.

Inductive ExpStatusOptions : Type := STARTED | ERROR | STOPPED | FINISHED.

Inductive ExpInfoFields : Type :=
  | NAME | ID | DIR | TIMESTAMP | ARGS | FUNCTION | MODULE | FILE
  | STATUS | N_FIGS | FIGS | RUNTIME | USER | MAC.

Inductive info_value : Type :=
  | InfoStr (s : string)
  | InfoArgs (items : list (string * pyval))
  | InfoStatus (s : ExpStatusOptions)
  | InfoNum (n : Z)
  | InfoList (l : list string).

(** Modelled from the spec: the record handle of
    [artemis.experiments.experiment_record], which is not under src/.
    It holds what [set_field], [write_error_trace], [save_result] and
    [add_note] put into it; [info] has the latest field first. *)
Record ExperimentRecord : Type := mkRecord {
  record_name : string;
  use_temp_dir : bool;
  info : list (ExpInfoFields * info_value);
  error_trace : option exn;
  saved_result : option pyval;
  notes : list string;
  closed : bool
}.

(** What reaches the console. *)
Inductive console_event : Type :=
  | LoggerInfo (msg : string)
  | PrintedTrace (e : exn)
  | Displayed (display : string) (results : pyval).

(** The process: the objects, the module globals of [experiments.py] and
    of [artemis.general.test_mode], the records and the console. *)
Record World : Type := mkWorld {
  heap : list Experiment;
  GLOBAL_EXPERIMENT_LIBRARY : dict ref;
  keep_record_by_default : pyval;
  _TEST_MODE : pyval;
  records : list ExperimentRecord;
  console : list console_event
}.

(** A fresh interpreter after the module is imported. *)
Definition init_world : World :=
  {| heap := [];
     GLOBAL_EXPERIMENT_LIBRARY := [];
     keep_record_by_default := PyNone;
     _TEST_MODE := PyBool false;
     records := [];
     console := [] |}.

(** Assignments to one component of the store. *)
Definition with_heap (h : list Experiment) (w : World) : World :=
  {| heap := h;
     GLOBAL_EXPERIMENT_LIBRARY := GLOBAL_EXPERIMENT_LIBRARY w;
     keep_record_by_default := keep_record_by_default w;
     _TEST_MODE := _TEST_MODE w;
     records := records w;
     console := console w |}.

Definition with_library (l : dict ref) (w : World) : World :=
  {| heap := heap w;
     GLOBAL_EXPERIMENT_LIBRARY := l;
     keep_record_by_default := keep_record_by_default w;
     _TEST_MODE := _TEST_MODE w;
     records := records w;
     console := console w |}.

Definition with_test_mode (state : pyval) (w : World) : World :=
  {| heap := heap w;
     GLOBAL_EXPERIMENT_LIBRARY := GLOBAL_EXPERIMENT_LIBRARY w;
     keep_record_by_default := keep_record_by_default w;
     _TEST_MODE := state;
     records := records w;
     console := console w |}.

Definition with_records (rs : list ExperimentRecord) (w : World) : World :=
  {| heap := heap w;
     GLOBAL_EXPERIMENT_LIBRARY := GLOBAL_EXPERIMENT_LIBRARY w;
     keep_record_by_default := keep_record_by_default w;
     _TEST_MODE := _TEST_MODE w;
     records := rs;
     console := console w |}.

Definition with_console (c : list console_event) (w : World) : World :=
  {| heap := heap w;
     GLOBAL_EXPERIMENT_LIBRARY := GLOBAL_EXPERIMENT_LIBRARY w;
     keep_record_by_default := keep_record_by_default w;
     _TEST_MODE := _TEST_MODE w;
     records := records w;
     console := c |}.

(** [e.variants[variant_name] = ex] *)
Definition with_variant (variant_name : string) (ex : ref) (e : Experiment) : Experiment :=
  {| name := name e;
     function := function e;
     _display_function := _display_function e;
     _one_liner_results := _one_liner_results e;
     _comparison_function := _comparison_function e;
     variants := setitem (variants e) variant_name ex;
     _notes := _notes e;
     is_root := is_root e |}.

(** The collaborators the module calls and the behaviour of the user's
    callables.  [call f flag] is the outcome of invoking [f] with no
    argument while [is_test_mode()] is [flag]. *)
Record Environment : Type := mkEnvironment {
  call : callable -> pyval -> result pyval;
  display : string -> pyval -> result unit;
  infer_derived_arg_values : callable -> list (string * pyval);
  getmodule : callable -> string * option string;
  getuser : string;
  getnode : string;
  now : string;
  elapsed : Z;
  get_identifier : ref -> string;
  get_dir : ref -> string;
  get_figure_locs : ref -> list string;
  experiment_id_to_record_ids : string -> list string;
  load_experiment_record : string -> ExperimentRecord
}.

(** Computations on the store.  A raise keeps the mutations made before
    it. *)
Definition M (A : Type) : Type := World -> result A * World.

Global Instance M_ret : MRet M := fun A a w => (Ok a, w).

Global Instance M_bind : MBind M := fun A B f m w =>
  match m w with
  | (Ok a, w') => f a w'
  | (Raise e, w') => (Raise e, w')
  end.

Definition raise {A} (e : exn) : M A := fun w => (Raise e, w).

Definition lift {A} (r : result A) : M A := fun w => (r, w).

Definition gets {A} (f : World -> A) : M A := fun w => (Ok (f w), w).

Definition modify (f : World -> World) : M unit := fun w => (Ok tt, f w).

(** The object behind a reference.  [ReferenceError] is not a Python
    outcome here: the model gives it to a reference that denotes no
    object, which no operation below produces. *)
Definition ReferenceError : exn := Exception "ReferenceError" "".

Definition deref (r : ref) : M Experiment := fun w =>
  match heap w !! r with
  | Some ex => (Ok ex, w)
  | None => (Raise ReferenceError, w)
  end.

(** [try: body / except: handler / finally: final].  [handler e] is
    [None] when no [except] clause matches [e]. *)
Definition try_except_finally {A}
    (body : M A) (handler : exn -> option (M A)) (final : M unit) : M A :=
  fun w =>
    let (r, w1) :=
      match body w with
      | (Ok a, w1) => (Ok a, w1)
      | (Raise e, w1) =>
          match handler e with
          | Some h => h w1
          | None => (Raise e, w1)
          end
      end in
    match final w1 with
    | (Ok _, w2) => (r, w2)
    | (Raise e, w2) => (Raise e, w2)
    end.

(** [assert cond, msg] *)
Definition assert (cond : bool) (msg : string) : M unit :=
  if cond then mret tt else raise (AssertionError msg).

(* ================================================================== *)
(** ** The experiment library and the tree of variants *)
(* ================================================================== *)

(** [_register_experiment], line 331. *)
Definition _register_experiment (experiment : ref) : M unit :=
  ex ← deref experiment;
  modify (fun w =>
    with_library (setitem (GLOBAL_EXPERIMENT_LIBRARY w) (name ex) experiment) w).

(** [clear_all_experiments], line 313. *)
Definition clear_all_experiments : M unit :=
  modify (with_library []).

(** [load_experiment], line 340. *)
Definition load_experiment (experiment_id : string) : M ref := fun w =>
  match getitem (GLOBAL_EXPERIMENT_LIBRARY w) experiment_id with
  | Ok ex => (Ok ex, w)
  | Raise _ => (Raise (ExperimentNotFoundError experiment_id), w)
  end.

(** [is_experiment_loadable], line 347. *)
Definition is_experiment_loadable (experiment_id : string) : M bool :=
  gets (fun w => contains (GLOBAL_EXPERIMENT_LIBRARY w) experiment_id).

(** A new object at the end of the heap. *)
Definition new_object (ex : Experiment) : M ref := fun w =>
  (Ok (length (heap w)), with_heap (heap w ++ [ex]) w).

(** [Experiment.__init__], line 25. *)
Definition Experiment_init (function : callable)
    (display_function comparison_function one_liner_function : option string)
    (name : string) (is_root : bool) : M ref :=
  self ← new_object
    {| name := name;
       function := function;
       _display_function := display_function;
       _one_liner_results := one_liner_function;
       _comparison_function := comparison_function;
       variants := [];
       _notes := [];
       is_root := is_root |};
  (if negb is_root then _register_experiment self else mret tt);;
  mret self.

(** [self.variants[name] = ex] *)
Definition set_variant (self : ref) (variant_name : string) (ex : ref) : M unit :=
  modify (fun w => with_heap (alter (with_variant variant_name ex) self (heap w)) w).

Definition quote : string := String (Ascii.ascii_of_nat 34) "".

Definition arity_message : string :=
  "When creating an experiment variant, you can either provide one unnamed argument (the experiment name), or zero, in which case the experiment is named after the named argumeents.  See add_variant docstring".

Definition duplicate_message (variant_name : string) : string :=
  "Variant " +:+ quote +:+ variant_name +:+ quote +:+ " already exists.".

(** The specification's names for the two assertion failures of variant
    creation. *)
Definition InvalidArityError : exn := AssertionError arity_message.
Definition DuplicateVariantError (variant_name : string) : exn :=
  AssertionError (duplicate_message variant_name).

(** [args[0] if len(args) == 1 else _kwargs_to_experiment_name(kwargs)] *)
Definition resolve_name (args : list string) (kwargs : dict pyval) : result string :=
  match args with
  | [n] => Ok n
  | _ => _kwargs_to_experiment_name kwargs
  end.

(** [Experiment._create_experiment_variant], line 155.  [args] are the
    positional arguments, [kwargs] the keyword arguments. *)
Definition _create_experiment_variant
    (self : ref) (args : list string) (kwargs : dict pyval) (is_root : bool) : M ref :=
  assert (bool_decide (length args = 0%nat) || bool_decide (length args = 1%nat))
    arity_message;;
  variant_name ← lift (resolve_name args kwargs);
  parent ← deref self;
  assert (negb (contains (variants parent) variant_name))
    (duplicate_message variant_name);;
  ex ← Experiment_init
         (Partial (function parent) kwargs)
         (display_function parent)
         (comparison_function parent)
         (one_liner_function parent)
         (name parent +:+ "." +:+ variant_name)
         is_root;
  set_variant self variant_name ex;;
  mret ex.

(** [Experiment.add_variant], line 170. *)
Definition add_variant (self : ref) (args : list string) (kwargs : dict pyval) : M ref :=
  _create_experiment_variant self args kwargs false.

(** [Experiment.add_root_variant], line 187. *)
Definition add_root_variant (self : ref) (args : list string) (kwargs : dict pyval) : M ref :=
  _create_experiment_variant self args kwargs true.

(** [Experiment.get_variant], line 207. *)
Definition get_variant (self : ref) (args : list string) (kwargs : dict pyval) : M ref :=
  variant_name ← match args with
                 | [] => lift (_kwargs_to_experiment_name kwargs)
                 | [n] =>
                     assert (bool_decide (length kwargs = 0%nat))
                       "If you provide a variant name, there is no need to specify the keyword arguments.";;
                     mret n
                 | _ => raise (AssertionError
                     "You can only provide 1 unnamed argument to get_variant: the variant name.")
                 end;
  parent ← deref self;
  match dict_get (variants parent) variant_name with
  | Some v => mret v
  | None => raise (AssertionError ("No variant '" +:+ variant_name +:+ "' exists."))
  end.

(** [Experiment.get_all_variants], line 249.  The recursion follows
    references through the heap, so it is bounded by [fuel]; [None] is
    the bound reached or a reference without object. *)
Fixpoint get_all_variants_fuel (fuel : nat) (h : list Experiment) (self : ref)
    (include_roots include_self : bool) : option (list ref) :=
  match fuel with
  | O => None
  | S fuel' =>
      ex ← h !! self;
      let variants0 :=
        if include_self && (negb (is_root ex) || include_roots) then [self] else [] in
      foldl (fun acc nv =>
               vs ← acc;
               more ← get_all_variants_fuel fuel' h nv.2 include_roots true;
               Some (vs ++ more))
            (Some variants0) (variants ex)
  end.

(** Every reference of the heap is below its length and a child is
    allocated after its parent, so this fuel is enough (see
    [get_all_variants_total]). *)
Definition get_all_variants (w : World) (self : ref)
    (include_roots include_self : bool) : option (list ref) :=
  get_all_variants_fuel (S (length (heap w))) (heap w) self include_roots include_self.

(** [capture_created_experiments], line 317, around a block [body]:
    the list it yields, as it is when the block is left normally. *)
Definition capture_created_experiments {A} (body : M A) : M (list ref) :=
  current_len ← gets (fun w => length (GLOBAL_EXPERIMENT_LIBRARY w));
  body;;
  new_experiments ← gets (fun w => drop current_len (values (GLOBAL_EXPERIMENT_LIBRARY w)));
  mret new_experiments.

(* ================================================================== *)
(** ** Run records and the record queries *)
(* ================================================================== *)

Global Instance ExpStatusOptions_eq_dec : EqDecision ExpStatusOptions.
Proof. solve_decision. Defined.

Global Instance ExpInfoFields_eq_dec : EqDecision ExpInfoFields.
Proof. solve_decision. Defined.

(** [record.info.get_field(field)] *)
Fixpoint get_field (i : list (ExpInfoFields * info_value)) (field : ExpInfoFields)
    : option info_value :=
  match i with
  | [] => None
  | (f, v) :: i' => if decide (f = field) then Some v else get_field i' field
  end.

(** [record.get_status()] *)
Definition get_status (record : ExperimentRecord) : option ExpStatusOptions :=
  match get_field (info record) STATUS with
  | Some (InfoStatus s) => Some s
  | _ => None
  end.

(** [Experiment.get_records], line 223. *)
Definition get_records (env : Environment) (self : Experiment) (only_completed : bool)
    : list ExperimentRecord :=
  let records :=
    load_experiment_record env <$> experiment_id_to_record_ids env (name self) in
  if only_completed
  then filter (fun record => get_status record = Some FINISHED) records
  else records.

(** [Experiment.get_latest_record], line 266.  [None] is Python's. *)
Definition get_latest_record (env : Environment) (self : Experiment)
    (only_completed err_if_none : bool) : result (option ExperimentRecord) :=
  let records := get_records env self only_completed in
  if bool_decide (length records = 0%nat) then
    if err_if_none
    then Raise (Exception "Exception"
                  ("No" +:+ (if only_completed then " completed" else "") +:+
                   " records for experiment " +:+ quote +:+ name self +:+ quote))
    else Ok None
  else Ok (last records).

(** What [get_variant_records] returns, by [only_last] and [flat].  The
    elements of [FlatLast] are Python values that could be [None]. *)
Inductive variant_records : Type :=
  | DictLast (d : dict (option ExperimentRecord))
  | FlatLast (l : list (option ExperimentRecord))
  | DictAll (d : dict (list ExperimentRecord))
  | FlatAll (l : list ExperimentRecord).

(** [Experiment.get_variant_records], line 282.  The outer [option] is
    that of [get_all_variants]. *)
Definition get_variant_records (env : Environment) (w : World) (self : ref)
    (only_completed only_last flat : bool) : option (result variant_records) :=
  variants ← get_all_variants w self false true;
  exs ← mapM (fun ex => heap w !! ex) variants;
  Some
    (if only_last then
       result_bind
         (comprehension
            (fun ex =>
               result_bind (get_latest_record env ex only_completed false)
                 (fun record => Ok (name ex, record)))
            exs)
         (fun pairs =>
            let exp_record_dict := OrderedDict pairs in
            if flat
            then Ok (FlatLast (filter (fun record => is_Some record)
                                 (values exp_record_dict)))
            else Ok (DictLast exp_record_dict))
     else
       let exp_record_dict :=
         OrderedDict ((fun ex => (name ex, get_records env ex only_completed)) <$> exs) in
       if flat
       then Ok (FlatAll (concat (values exp_record_dict)))
       else Ok (DictAll exp_record_dict)).

(* ================================================================== *)
(** ** The run life cycle *)
(* ================================================================== *)

(** [is_test_mode()] and [set_test_mode(state)] of
    [artemis.general.test_mode]. *)
Definition is_test_mode : M pyval := gets _TEST_MODE.

Definition set_test_mode (state : pyval) : M unit :=
  modify (with_test_mode state).

Definition to_console (ev : console_event) : M unit :=
  modify (fun w => with_console (console w ++ [ev]) w).

(** [ARTEMIS_LOGGER.info(msg)] *)
Definition logger_info (msg : string) : M unit := to_console (LoggerInfo msg).

Definition update_record (exp_rec : ref) (f : ExperimentRecord -> ExperimentRecord)
    : M unit :=
  modify (fun w => with_records (alter f exp_rec (records w)) w).

(** The effect of the methods of the record on its content. *)
Definition add_info (field : ExpInfoFields) (value : info_value)
    (r : ExperimentRecord) : ExperimentRecord :=
  {| record_name := record_name r; use_temp_dir := use_temp_dir r;
     info := (field, value) :: info r;
     error_trace := error_trace r; saved_result := saved_result r;
     notes := notes r; closed := closed r |}.

Definition with_error_trace (e : exn) (r : ExperimentRecord) : ExperimentRecord :=
  {| record_name := record_name r; use_temp_dir := use_temp_dir r;
     info := info r;
     error_trace := Some e; saved_result := saved_result r;
     notes := notes r; closed := closed r |}.

Definition with_result (results : pyval) (r : ExperimentRecord) : ExperimentRecord :=
  {| record_name := record_name r; use_temp_dir := use_temp_dir r;
     info := info r;
     error_trace := error_trace r; saved_result := Some results;
     notes := notes r; closed := closed r |}.

Definition with_note (n : string) (r : ExperimentRecord) : ExperimentRecord :=
  {| record_name := record_name r; use_temp_dir := use_temp_dir r;
     info := info r;
     error_trace := error_trace r; saved_result := saved_result r;
     notes := notes r ++ [n]; closed := closed r |}.

Definition with_closed (r : ExperimentRecord) : ExperimentRecord :=
  {| record_name := record_name r; use_temp_dir := use_temp_dir r;
     info := info r;
     error_trace := error_trace r; saved_result := saved_result r;
     notes := notes r; closed := true |}.

(** [exp_rec.info.set_field(field, value)] *)
Definition set_field (exp_rec : ref) (field : ExpInfoFields) (value : info_value)
    : M unit :=
  update_record exp_rec (add_info field value).

(** [exp_rec.write_error_trace(print_too)] while [e] is being handled *)
Definition write_error_trace (exp_rec : ref) (e : exn) (print_too : bool) : M unit :=
  update_record exp_rec (with_error_trace e);;
  if print_too then to_console (PrintedTrace e) else mret tt.

(** [exp_rec.save_result(results)] *)
Definition save_result (exp_rec : ref) (results : pyval) : M unit :=
  update_record exp_rec (with_result results).

(** [exp_rec.info.add_note(n)] *)
Definition add_note (exp_rec : ref) (n : string) : M unit :=
  update_record exp_rec (with_note n).

(** The record as [record_experiment] creates it, and the store with one
    more record. *)
Definition new_record (name : string) (use_temp_dir : bool) : ExperimentRecord :=
  {| record_name := name; use_temp_dir := use_temp_dir; info := [];
     error_trace := None; saved_result := None; notes := [];
     closed := false |}.

Definition recording (w : World) (r : ExperimentRecord) : World :=
  with_records (records w ++ [r]) w.

(** Whether [experiment_record_kwargs] repeats a keyword that line 109
    passes by name. *)
Definition clashes (experiment_record_kwargs : dict pyval) : bool :=
  bool_decide (Exists (fun k => contains experiment_record_kwargs k)
                 ["name"; "print_to_console"; "show_figs"; "use_temp_dir"; "date"]).

(** Modelled from the spec: entering [record_experiment(...)], which is
    not under src/, creates the run record at a temporary or persistent
    location.  The call at line 109 passes five keywords by name, so one
    of them again in [experiment_record_kwargs] is a [TypeError]. *)
Definition record_experiment (name : string) (print_to_console show_figs : pyval)
    (use_temp_dir : bool) (date : string) (experiment_record_kwargs : dict pyval)
    : M ref :=
  if clashes experiment_record_kwargs
  then raise (TypeError "record_experiment() got multiple values for keyword argument")
  else fun w => (Ok (length (records w)), recording w (new_record name use_temp_dir)).

(** Modelled from the spec: leaving the scope of [record_experiment]
    finalizes the location, on every exit path. *)
Definition record_experiment_exit (exp_rec : ref) : M unit :=
  update_record exp_rec with_closed.

(** [with enter as x: body]: the exit runs on every path and lets an
    exception through. *)
Definition with_as {A} (enter : M ref) (exit : ref -> M unit) (body : ref -> M A)
    : M A :=
  x ← enter;
  try_except_finally (body x) (fun _ => None) (exit x).

(** [for x in l: f(x)] *)
Fixpoint for_each {A} (l : list A) (f : A -> M unit) : M unit :=
  match l with
  | [] => mret tt
  | x :: l' => f x;; for_each l' f
  end.

(** [self.function()] *)
Definition call_function (env : Environment) (f : callable) : M pyval :=
  fun w => (call env f (_TEST_MODE w), w).

(** [self.display_function(results)] *)
Definition call_display (env : Environment) (d : string) (results : pyval) : M unit :=
  to_console (Displayed d results);;
  lift (display env d results).

(** The arguments of [run], line 76. *)
Record RunArgs : Type := mkRunArgs {
  print_to_console : pyval;
  show_figs : pyval;
  test_mode : pyval;
  keep_record : pyval;
  raise_exceptions : pyval;
  display_results : pyval;
  experiment_record_kwargs : dict pyval
}.

(** How the [with] block of [run] is left when no exception leaves it:
    by falling through with [results] bound, or by [return exp_rec]. *)
Inductive completion : Type :=
  | Continue (exp_rec : ref) (results : pyval)
  | Return (exp_rec : ref).

Definition border : string := "==========".

(** [':'.join(s[i:i+2] for i in range(0, 12, 2))] *)
Definition mac_address (s : string) : string :=
  join ":" ((fun i => String.substring i 2 s) <$> [0; 2; 4; 6; 8; 10]%nat).

(** The [try] block of [run], lines 114 to 128. *)
Definition run_try (env : Environment) (ex : Experiment) (date : string)
    (exp_rec : ref) : M completion :=
  set_field exp_rec NAME (InfoStr (name ex));;
  set_field exp_rec ID (InfoStr (get_identifier env exp_rec));;
  set_field exp_rec DIR (InfoStr (get_dir env exp_rec));;
  set_field exp_rec ARGS (InfoArgs (infer_derived_arg_values env (function ex)));;
  set_field exp_rec FUNCTION (InfoStr (root_function_name (function ex)));;
  set_field exp_rec TIMESTAMP (InfoStr date);;
  let module := getmodule env (function ex) in
  set_field exp_rec MODULE (InfoStr module.1);;
  set_field exp_rec FILE (InfoStr (default "<unknown>" module.2));;
  set_field exp_rec STATUS (InfoStatus STARTED);;
  set_field exp_rec USER (InfoStr (getuser env));;
  set_field exp_rec MAC (InfoStr (mac_address (getnode env)));;
  results ← call_function env (function ex);
  set_field exp_rec STATUS (InfoStatus FINISHED);;
  mret (Continue exp_rec results).

(** The [except] clauses of [run], lines 129 to 139: the clause that
    catches [e], if one does. *)
Definition run_except (raise_exceptions : pyval) (exp_rec : ref) (e : exn)
    : option (M completion) :=
  if isinstance_KeyboardInterrupt e then Some (
    set_field exp_rec STATUS (InfoStatus STOPPED);;
    write_error_trace exp_rec e false;;
    raise e)
  else if isinstance_Exception e then Some (
    set_field exp_rec STATUS (InfoStatus ERROR);;
    write_error_trace exp_rec e (negb (truthy raise_exceptions));;
    if truthy raise_exceptions
    then raise e
    else mret (Return exp_rec))
  else None.

(** The [finally] block of [run], lines 141 to 144. *)
Definition run_finally (env : Environment) (exp_rec : ref) : M unit :=
  set_field exp_rec RUNTIME (InfoNum (elapsed env));;
  let fig_locs := get_figure_locs env exp_rec in
  set_field exp_rec N_FIGS (InfoNum (Z.of_nat (length fig_locs)));;
  set_field exp_rec FIGS (InfoList fig_locs).

(** The statements of [run] after the [with] block, lines 146 to 153. *)
Definition run_after (env : Environment) (ex : Experiment) (display_results : pyval)
    (mode : string) (old_test_mode : pyval) (exp_rec : ref) (results : pyval) : M ref :=
  save_result exp_rec results;;
  for_each (_notes ex) (add_note exp_rec);;
  match display_function ex with
  | Some d => if truthy display_results then call_display env d results else mret tt
  | None => mret tt
  end;;
  logger_info (border +:+ " Done " +:+ mode +:+ " Experiment: " +:+ name ex +:+ " " +:+ border);;
  set_test_mode old_test_mode;;
  mret exp_rec.

(** [Experiment.run], line 76. *)
Definition run (env : Environment) (self : ref) (a : RunArgs) : M ref :=
  ex ← deref self;
  flag ← is_test_mode;
  let test_mode := if is_None (test_mode a) then flag else test_mode a in
  by_default ← gets keep_record_by_default;
  let keep_record :=
    if is_None (keep_record a)
    then (if negb (is_None by_default) then by_default
          else PyBool (negb (truthy test_mode)))
    else keep_record a in
  old_test_mode ← is_test_mode;
  set_test_mode test_mode;;
  let mode := if truthy test_mode then "Testing" else "Running" in
  logger_info (border +:+ " " +:+ mode +:+ " Experiment: " +:+ name ex +:+ " " +:+ border);;
  let date := now env in
  c ← with_as
        (record_experiment (name ex) (print_to_console a) (show_figs a)
           (negb (truthy keep_record)) date (experiment_record_kwargs a))
        record_experiment_exit
        (fun exp_rec =>
           try_except_finally
             (run_try env ex date exp_rec)
             (run_except (raise_exceptions a) exp_rec)
             (run_finally env exp_rec));
  match c with
  | Return exp_rec => mret exp_rec
  | Continue exp_rec results =>
      run_after env ex (display_results a) mode old_test_mode exp_rec results
  end.

(** The parameters of [run] that a keyword can bind. *)
Definition run_parameters : list string :=
  ["print_to_console"; "show_figs"; "test_mode"; "keep_record";
   "raise_exceptions"; "display_results"].

Definition kwarg (kwargs : dict pyval) (parameter : string) (by_default : pyval) : pyval :=
  default by_default (dict_get kwargs parameter).

(** The binding of a call [self.run( **kwargs )] to the signature of
    line 76: defaults for the absent parameters, the other keywords into
    [experiment_record_kwargs]. *)
Definition bind_run (kwargs : dict pyval) : RunArgs :=
  {| print_to_console := kwarg kwargs "print_to_console" (PyBool true);
     show_figs := kwarg kwargs "show_figs" PyNone;
     test_mode := kwarg kwargs "test_mode" PyNone;
     keep_record := kwarg kwargs "keep_record" PyNone;
     raise_exceptions := kwarg kwargs "raise_exceptions" (PyBool true);
     display_results := kwarg kwargs "display_results" (PyBool true);
     experiment_record_kwargs :=
       filter (fun kv => kv.1 ∉ run_parameters) kwargs |}.

(** [Experiment.test], line 263: [self.run(test_mode=True, **kwargs)],
    where a [test_mode] among [kwargs] is a second value for the
    parameter; the method has no [return], so it returns [None]. *)
Definition test (env : Environment) (self : ref) (kwargs : dict pyval)
    : M (option ref) :=
  (if contains kwargs "test_mode"
   then raise (TypeError "run() got multiple values for keyword argument 'test_mode'")
   else run env self (bind_run (("test_mode", PyBool true) :: kwargs)));;
  mret None.

(* ================================================================== *)
(** ** Further methods *)
(* ================================================================== *)

(** [Experiment.__str__], line 62. *)
Definition Experiment_str (self : Experiment) : string :=
  "Experiment " +:+ name self.

(** [Experiment.get_id], line 204. *)
Definition get_id (self : Experiment) : string := name self.

(** [get_experiment_info], line 335. *)
Definition get_experiment_info (name : string) : M string :=
  experiment ← load_experiment name;
  ex ← deref experiment;
  mret (Experiment_str ex).

(** [Experiment.has_record], line 237.  [is_valid] is the method
    [record.is_valid()] of the records, which is not under src/. *)
Definition has_record (env : Environment) (is_valid : ExperimentRecord -> bool)
    (self : Experiment) (completed valid : bool) : bool :=
  let records := get_records env self completed in
  let records :=
    if valid then filter (fun record => is_valid record = true) records else records in
  bool_decide (0 < length records)%nat.

(* ================================================================== *)
(** ** Programs that build trees *)
(* ================================================================== *)

(** The calls of a client that define experiments. *)
Inductive operation : Type :=
  | NewExperiment (function : string) (display_function : option string)
      (name : string) (is_root : bool)
  | AddVariant (self : ref) (args : list string) (kwargs : dict pyval)
  | AddRootVariant (self : ref) (args : list string) (kwargs : dict pyval)
  | ClearAllExperiments.

Definition perform (o : operation) : M (option ref) :=
  match o with
  | NewExperiment f d n r =>
      ex ← Experiment_init (Function f) d None None n r; mret (Some ex)
  | AddVariant self args kwargs =>
      ex ← add_variant self args kwargs; mret (Some ex)
  | AddRootVariant self args kwargs =>
      ex ← add_root_variant self args kwargs; mret (Some ex)
  | ClearAllExperiments => clear_all_experiments;; mret None
  end.

(** Whether the call [o] goes through [_register_experiment]. *)
Definition registers (o : operation) : bool :=
  match o with
  | NewExperiment _ _ _ r => negb r
  | AddVariant _ _ _ => true
  | AddRootVariant _ _ _ => false
  | ClearAllExperiments => false
  end.

(** The store after the calls [ops], one after the other; a call that
    raises is caught by the client, which goes on. *)
Definition perform_all (ops : list operation) (w : World) : World :=
  foldl (fun w o => (perform o w).2) w ops.

(** The calls as one block of statements. *)
Definition block (ops : list operation) : M unit := modify (perform_all ops).

(** The nodes that the calls [ops] hand to [_register_experiment], in
    order, starting from the store [w]. *)
Fixpoint registered (ops : list operation) (w : World) : list ref :=
  match ops with
  | [] => []
  | o :: ops' =>
      match perform o w with
      | (Ok (Some ex), w') =>
          (if registers o then [ex] else []) ++ registered ops' w'
      | (_, w') => registered ops' w'
      end
  end.

(** An environment for the examples: the callable named [fails] raises a
    [ValueError], [interrupted] is interrupted, [exits] calls
    [sys.exit], any other returns 42; no record is on disk. *)
Definition example_env : Environment :=
  {| call := fun f _ =>
       if String.eqb (root_function_name f) "fails"
       then Raise (Exception "ValueError" "boom")
       else if String.eqb (root_function_name f) "interrupted"
       then Raise KeyboardInterrupt
       else if String.eqb (root_function_name f) "exits"
       then Raise SystemExit
       else Ok (PyInt 42);
     display := fun _ _ => Ok tt;
     infer_derived_arg_values := fun _ => [];
     getmodule := fun _ => ("__main__", None);
     getuser := "user";
     getnode := "0123456789AB";
     now := "2017-01-01 00:00:00";
     elapsed := 1;
     get_identifier := fun _ => "id";
     get_dir := fun _ => "dir";
     get_figure_locs := fun _ => [];
     experiment_id_to_record_ids := fun _ => [];
     load_experiment_record := fun _ =>
       {| record_name := ""; use_temp_dir := false; info := [];
          error_trace := None; saved_result := None; notes := [];
          closed := true |} |}.

Definition default_args : RunArgs := bind_run [].

(* ================================================================== *)
(** ** Vocabulary of the statements *)
(* ================================================================== *)

(** The item of key [k] in [kwargs]. *)
Definition item_of (kwargs : dict pyval) (k : string) : string * pyval :=
  (k, default PyNone (dict_get kwargs k)).

(** The invariant of the store: references denote objects, a variant is
    allocated after its parent, and only nodes that are not roots are in
    the library. *)
Definition wf_heap (h : list Experiment) : Prop :=
  forall i ex, h !! i = Some ex ->
    Forall (fun nv => (i < nv.2 < length h)%nat) (variants ex).

Definition wf_library (w : World) : Prop :=
  Forall (fun r => exists ex, heap w !! r = Some ex /\ is_root ex = false)
    (values (GLOBAL_EXPERIMENT_LIBRARY w)).

Definition wf_world (w : World) : Prop := wf_heap (heap w) /\ wf_library w.

(** The node that variant creation allocates under [parent]. *)
Definition variant_node (parent : Experiment) (variant_name : string)
    (kwargs : dict pyval) (is_root : bool) : Experiment :=
  {| name := name parent +:+ "." +:+ variant_name;
     function := Partial (function parent) kwargs;
     _display_function := _display_function parent;
     _one_liner_results := _display_function parent;
     _comparison_function := _display_function parent;
     variants := [];
     _notes := [];
     is_root := is_root |}.

(** The store after a variant creation that succeeds: the new node at
    the end of the heap, registered unless it is a root, and entered in
    the variants of its parent. *)
Definition created (self : ref) (parent : Experiment) (variant_name : string)
    (kwargs : dict pyval) (is_root : bool) (w : World) : World :=
  let ex := length (heap w) in
  let node := variant_node parent variant_name kwargs is_root in
  {| heap := alter (with_variant variant_name ex) self (heap w ++ [node]);
     GLOBAL_EXPERIMENT_LIBRARY :=
       if is_root then GLOBAL_EXPERIMENT_LIBRARY w
       else setitem (GLOBAL_EXPERIMENT_LIBRARY w) (name node) ex;
     keep_record_by_default := keep_record_by_default w;
     _TEST_MODE := _TEST_MODE w;
     records := records w;
     console := console w |}.

(** The store [w'] is a later state of [w]: the nodes of [w] are still
    there with their name and root flag, and with at least the variants
    they had. *)
Definition extends (w w' : World) : Prop :=
  forall i ex, heap w !! i = Some ex ->
    exists ex', heap w' !! i = Some ex' /\
      name ex' = name ex /\ is_root ex' = is_root ex /\
      (forall nv, nv ∈ variants ex -> nv ∈ variants ex').

(** The name of the node [ex] of the store, and its latest record (or
    [None]) as [get_variant_records] takes it. *)
Definition name_of (w : World) (ex : ref) : string :=
  from_option name "" (heap w !! ex).

Definition latest_of (env : Environment) (w : World) (only_completed : bool) (ex : ref)
    : option ExperimentRecord :=
  from_option (fun e => last (get_records env e only_completed)) None (heap w !! ex).

Definition entry_of (env : Environment) (w : World) (only_completed : bool) (ex : ref)
    : string * option ExperimentRecord :=
  (name_of w ex, latest_of env w only_completed ex).

(** The [test_mode] that a run resolves, line 97. *)
Definition effective_test_mode (a : RunArgs) (w : World) : pyval :=
  if is_None (test_mode a) then _TEST_MODE w else test_mode a.

(** What the console received between the stores [w] and [w']. *)
Definition printed (w w' : World) : list console_event :=
  drop (length (console w)) (console w').

(** The record that a run started in the store [w] creates. *)
Definition record_of_run (w w' : World) : option ExperimentRecord :=
  records w' !! length (records w).

(** The [keep_record] that a run resolves, line 99. *)
Definition effective_keep_record (a : RunArgs) (w : World) : pyval :=
  if is_None (keep_record a)
  then (if negb (is_None (keep_record_by_default w)) then keep_record_by_default w
        else PyBool (negb (truthy (effective_test_mode a w))))
  else keep_record a.

(** The two lines that [run] logs. *)
Definition mode_of (test_mode : pyval) : string :=
  if truthy test_mode then "Testing" else "Running".

Definition start_line (ex : Experiment) (test_mode : pyval) : string :=
  border +:+ " " +:+ mode_of test_mode +:+ " Experiment: " +:+ name ex +:+ " " +:+ border.

Definition done_line (ex : Experiment) (test_mode : pyval) : string :=
  border +:+ " Done " +:+ mode_of test_mode +:+ " Experiment: " +:+ name ex +:+ " " +:+ border.

(** The store when the [with] block of [run] is entered: the flag set
    and the first line logged. *)
Definition entered (ex : Experiment) (a : RunArgs) (w : World) : World :=
  with_console (console w ++ [LoggerInfo (start_line ex (effective_test_mode a w))])
    (with_test_mode (effective_test_mode a w) w).

(** The record after the start metadata of lines 114 to 126. *)
Definition started (env : Environment) (ex : Experiment) (exp_rec : ref)
    (r : ExperimentRecord) : ExperimentRecord :=
  add_info MAC (InfoStr (mac_address (getnode env)))
  (add_info USER (InfoStr (getuser env))
  (add_info STATUS (InfoStatus STARTED)
  (add_info FILE (InfoStr (default "<unknown>" (getmodule env (function ex)).2))
  (add_info MODULE (InfoStr (getmodule env (function ex)).1)
  (add_info TIMESTAMP (InfoStr (now env))
  (add_info FUNCTION (InfoStr (root_function_name (function ex)))
  (add_info ARGS (InfoArgs (infer_derived_arg_values env (function ex)))
  (add_info DIR (InfoStr (get_dir env exp_rec))
  (add_info ID (InfoStr (get_identifier env exp_rec))
  (add_info NAME (InfoStr (name ex)) r)))))))))).

(** The record after the [finally] block and the exit of the scope. *)
Definition finalized (env : Environment) (exp_rec : ref)
    (r : ExperimentRecord) : ExperimentRecord :=
  with_closed
    (add_info FIGS (InfoList (get_figure_locs env exp_rec))
    (add_info N_FIGS (InfoNum (Z.of_nat (length (get_figure_locs env exp_rec))))
    (add_info RUNTIME (InfoNum (elapsed env)) r))).

(** The display callable that [run] invokes after a normal completion,
    if any, line 149. *)
Definition display_call (ex : Experiment) (display_results : pyval) : option string :=
  match display_function ex with
  | Some d => if truthy display_results then Some d else None
  | None => None
  end.

(** The record with the notes of the node [ex] added. *)
Definition noted (ex : Experiment) (r : ExperimentRecord) : ExperimentRecord :=
  foldl (fun r note => with_note note r) r (_notes ex).

(** [d] is below [p] in the tree of variants of the heap [h]. *)
Inductive descendant (h : list Experiment) : ref -> ref -> Prop :=
  | descendant_child p ex n c :
      h !! p = Some ex -> (n, c) ∈ variants ex -> descendant h p c
  | descendant_step p ex n c d :
      h !! p = Some ex -> (n, c) ∈ variants ex -> descendant h c d ->
      descendant h p d.

(** The root flag of the node [r] of the heap [h]. *)
Definition is_root_at (h : list Experiment) (r : ref) : bool :=
  from_option is_root false (h !! r).

(** In the block [ops] run from the store [w], the library is never
    cleared and every node is registered under a name that is not in
    the library yet. *)
Fixpoint fresh_block (ops : list operation) (w : World) : Prop :=
  match ops with
  | [] => True
  | o :: ops' =>
      o <> ClearAllExperiments /\
      (forall ex w', perform o w = (Ok (Some ex), w') -> registers o = true ->
                     name_of w' ex ∉ keys (GLOBAL_EXPERIMENT_LIBRARY w)) /\
      fresh_block ops' (perform o w).2
  end.

(** What variant creation and registration keep true of the names: a
    variant is named after its parent and its key, keeps the root
    function of its parent and takes all three of its display callables
    from the display callable of its parent; the keys of a variant map
    are distinct; the library maps each of its names to a node of this
    name, and its names are distinct. *)
Definition wf_links (w : World) : Prop :=
  (forall p ex n c, heap w !! p = Some ex -> (n, c) ∈ variants ex ->
     exists child, heap w !! c = Some child /\
       name child = name ex +:+ "." +:+ n /\
       root_function_name (function child) = root_function_name (function ex) /\
       _display_function child = _display_function ex /\
       _one_liner_results child = _display_function ex /\
       _comparison_function child = _display_function ex) /\
  (forall p ex, heap w !! p = Some ex -> NoDup (keys (variants ex))) /\
  (forall k r, (k, r) ∈ GLOBAL_EXPERIMENT_LIBRARY w -> name_of w r = k) /\
  NoDup (keys (GLOBAL_EXPERIMENT_LIBRARY w)).

(** All the records of the node [ex] of the store, as
    [get_variant_records] takes them. *)
Definition records_of (env : Environment) (w : World) (only_completed : bool) (ex : ref)
    : list ExperimentRecord :=
  from_option (fun e => get_records env e only_completed) [] (heap w !! ex).

(** The nodes of [w] keep, in the later store [w'], all their fields but
    their variants. *)
Definition keeps_nodes (w w' : World) : Prop :=
  forall i ex, heap w !! i = Some ex ->
    exists ex', heap w' !! i = Some ex' /\
      name ex' = name ex /\ function ex' = function ex /\
      _display_function ex' = _display_function ex /\
      _one_liner_results ex' = _one_liner_results ex /\
      _comparison_function ex' = _comparison_function ex.

(** A node is the variant of at most one node of the heap, under one
    key. *)
Definition unique_parent (h : list Experiment) : Prop :=
  forall p1 ex1 n1 p2 ex2 n2 c,
    h !! p1 = Some ex1 -> (n1, c) ∈ variants ex1 ->
    h !! p2 = Some ex2 -> (n2, c) ∈ variants ex2 ->
    p1 = p2 /\ n1 = n2.

(* ================================================================== *)
(** * Properties *)
(* ================================================================== *)

(** ** Dictionaries *)

Section DictFacts.
Context {V : Type}.
Implicit Types (d : dict V) (k : string) (v : V).

Lemma dict_get_Some d k v : dict_get d k = Some v -> (k, v) ∈ d.
Proof.
  induction d as [|[k' v'] d IH]; simpl; [done|].
  destruct (String.eqb_spec k' k) as [->|Hne].
  - intros [= ->]. left.
  - intros H. right. auto.
Qed.

Lemma dict_get_None d k : dict_get d k = None <-> k ∉ keys d.
Proof.
  unfold keys. induction d as [|[k' v'] d IH]; simpl.
  - split; [intros _; apply not_elem_of_nil | done].
  - rewrite not_elem_of_cons. destruct (String.eqb_spec k' k) as [->|Hne].
    + split; [done | intros [? _]; done].
    + rewrite IH. split; [intros H; split; [congruence | exact H] | intros [_ H]; exact H].
Qed.

Lemma dict_get_NoDup d k v : NoDup (keys d) -> (k, v) ∈ d -> dict_get d k = Some v.
Proof.
  unfold keys. induction d as [|[k' v'] d IH]; simpl.
  - intros _ H. by apply elem_of_nil in H.
  - rewrite NoDup_cons. intros [Hk' Hd] Hin.
    apply elem_of_cons in Hin as [[= -> ->]|Hin].
    + by rewrite String.eqb_refl.
    + destruct (String.eqb_spec k' k) as [->|Hne]; [|by apply IH].
      exfalso. apply Hk'. apply list_elem_of_fmap. by exists (k, v).
Qed.

Lemma contains_true d k : contains d k = true <-> k ∈ keys d.
Proof.
  unfold contains. rewrite bool_decide_eq_true.
  destruct (dict_get d k) eqn:E.
  - split; [intros _ | by eauto].
    destruct (decide (k ∈ keys d)) as [|Hn]; [done|].
    apply dict_get_None in Hn. congruence.
  - split; [by intros [? ?] | intros Hin]. by apply dict_get_None in E.
Qed.

Lemma contains_false d k : contains d k = false <-> k ∉ keys d.
Proof. rewrite <-contains_true. by destruct (contains d k). Qed.

Lemma dict_get_Permutation d d' k :
  NoDup (keys d) -> d ≡ₚ d' -> dict_get d k = dict_get d' k.
Proof.
  intros Hnd Hp.
  assert (NoDup (keys d')) as Hnd' by (unfold keys in *; by rewrite <-Hp).
  destruct (dict_get d k) as [v|] eqn:E.
  - symmetry. apply dict_get_NoDup; [done|]. rewrite <-Hp. by apply dict_get_Some.
  - symmetry. apply dict_get_None. apply dict_get_None in E.
    unfold keys in *. by rewrite <-Hp.
Qed.

(** Assigning to a key that is absent appends the item. *)
Lemma setitem_fresh d k v : k ∉ keys d -> setitem d k v = d ++ [(k, v)].
Proof.
  unfold keys. induction d as [|[k' v'] d IH]; simpl; [done|].
  rewrite not_elem_of_cons. intros [Hne Hk].
  destruct (String.eqb_spec k' k) as [->|_]; [done|]. by rewrite IH.
Qed.

Lemma setitem_keys_elem d k v k' : k' ∈ keys (setitem d k v) <-> k' = k \/ k' ∈ keys d.
Proof.
  unfold keys. induction d as [|[k0 v0] d IH]; simpl.
  - rewrite list_elem_of_singleton, elem_of_nil. tauto.
  - destruct (String.eqb_spec k0 k) as [->|Hne]; simpl.
    + rewrite !elem_of_cons. tauto.
    + rewrite !elem_of_cons, IH. tauto.
Qed.

Lemma setitem_keys_NoDup d k v : NoDup (keys d) -> NoDup (keys (setitem d k v)).
Proof.
  induction d as [|[k0 v0] d IH]; simpl.
  - intros _. apply NoDup_singleton.
  - unfold keys in *. simpl. rewrite NoDup_cons. intros [Hk0 Hd].
    destruct (String.eqb_spec k0 k) as [->|Hne]; simpl.
    + by apply NoDup_cons.
    + apply NoDup_cons. split; [|by apply IH].
      intros Hin. apply (setitem_keys_elem d k v k0) in Hin as [->|Hin]; done.
Qed.

Lemma OrderedDict_snoc (pairs : list (string * V)) kv :
  OrderedDict (pairs ++ [kv]) = setitem (OrderedDict pairs) kv.1 kv.2.
Proof. unfold OrderedDict. by rewrite foldl_app. Qed.

(** From items with pairwise distinct keys, [OrderedDict] makes the
    dictionary of exactly these items, in their order. *)
Lemma OrderedDict_NoDup (pairs : list (string * V)) :
  NoDup (keys pairs) -> OrderedDict pairs = pairs.
Proof.
  induction pairs as [|[k v] pairs IH] using rev_ind; [done|].
  unfold keys in *. rewrite fmap_app, NoDup_app. simpl. intros (Hnd & Hk & _).
  rewrite OrderedDict_snoc, IH by done. simpl.
  apply setitem_fresh. intros Hin. apply (Hk k Hin). left.
Qed.

Lemma OrderedDict_keys_NoDup (pairs : list (string * V)) :
  NoDup (keys (OrderedDict pairs)).
Proof.
  induction pairs as [|kv pairs IH] using rev_ind; [apply NoDup_nil_2|].
  rewrite OrderedDict_snoc. by apply setitem_keys_NoDup.
Qed.

Lemma OrderedDict_keys_elem (pairs : list (string * V)) k :
  k ∈ keys (OrderedDict pairs) <-> k ∈ keys pairs.
Proof.
  induction pairs as [|kv pairs IH] using rev_ind; [done|].
  rewrite OrderedDict_snoc, setitem_keys_elem, IH.
  unfold keys. rewrite fmap_app, elem_of_app. simpl.
  rewrite list_elem_of_singleton. tauto.
Qed.
End DictFacts.

(** ** Naming *)

Lemma comprehension_ext {A B} (f g : A -> result B) l :
  (forall x, x ∈ l -> f x = g x) -> comprehension f l = comprehension g l.
Proof.
  induction l as [|x l IH]; simpl; [done|]. intros H.
  rewrite (H x) by left. rewrite IH; [done|]. intros y Hy. apply H. by right.
Qed.

Lemma comprehension_Ok {A B} (f : A -> result B) (g : A -> B) l :
  (forall x, x ∈ l -> f x = Ok (g x)) -> comprehension f l = Ok (g <$> l).
Proof.
  induction l as [|x l IH]; simpl; [done|]. intros H.
  rewrite (H x) by left. simpl. rewrite IH; [done|]. intros y Hy. apply H. by right.
Qed.

Lemma items_of_keys (kwargs : dict pyval) :
  NoDup (keys kwargs) -> item_of kwargs <$> keys kwargs = kwargs.
Proof.
  intros Hnd. unfold keys. rewrite <-list_fmap_compose.
  transitivity (id <$> kwargs); [|apply list_fmap_id]. apply list_fmap_ext.
  intros _ [k v] Hin%list_elem_of_lookup_2. unfold item_of. simpl.
  by rewrite (dict_get_NoDup kwargs k v).
Qed.

Lemma sorted_Permutation (l l' : list string) : l ≡ₚ l' -> sorted l = sorted l'.
Proof.
  intros Hp. unfold sorted. apply (Sorted_unique String.le).
  - apply Sorted_merge_sort; apply _.
  - apply Sorted_merge_sort; apply _.
  - by rewrite !merge_sort_Permutation.
Qed.

Lemma kwargs_name_items (kwargs : dict pyval) :
  NoDup (keys kwargs) ->
  _kwargs_to_experiment_name kwargs
  = Ok (name_of_items (item_of kwargs <$> sorted (keys kwargs))).
Proof.
  intros Hnd. unfold _kwargs_to_experiment_name, name_of_items.
  rewrite (comprehension_Ok _ (fun k => format_item (item_of kwargs k).1 (item_of kwargs k).2)).
  - simpl. f_equal. f_equal. by rewrite <-list_fmap_compose.
  - intros k Hk. unfold sorted in Hk. rewrite merge_sort_Permutation in Hk.
    unfold getitem, item_of. simpl.
    destruct (dict_get kwargs k) eqn:E; [done|].
    by apply dict_get_None in E.
Qed.

(** C5.  For a dictionary of keyword arguments (keys pairwise
    distinct), [_kwargs_to_experiment_name] returns the [key=value]
    items of the dictionary joined with commas, the keys in ascending
    lexicographic order and each value rendered by [str]; and a
    dictionary with the same items in another iteration order gets the
    same name. *)
Theorem kwargs_name_sorted_order_independent (kwargs : dict pyval) :
  NoDup (keys kwargs) ->
  (exists items,
      items ≡ₚ kwargs /\
      Sorted key_le items /\
      _kwargs_to_experiment_name kwargs = Ok (name_of_items items)) /\
  (forall kwargs', kwargs' ≡ₚ kwargs ->
      _kwargs_to_experiment_name kwargs' = _kwargs_to_experiment_name kwargs).
Proof.
  intros Hnd. split.
  - exists (item_of kwargs <$> sorted (keys kwargs)). split_and!.
    + transitivity (item_of kwargs <$> keys kwargs); [|by rewrite items_of_keys].
      apply fmap_Permutation. unfold sorted. apply merge_sort_Permutation.
    + apply (Sorted_fmap _ String.le key_le); [by intros ? ? ?|].
      unfold sorted. apply Sorted_merge_sort; apply _.
    + by apply kwargs_name_items.
  - intros kwargs' Hp.
    assert (NoDup (keys kwargs')) as Hnd' by (unfold keys in *; by rewrite Hp).
    rewrite !kwargs_name_items by done. do 2 f_equal.
    rewrite (sorted_Permutation (keys kwargs') (keys kwargs))
      by (unfold keys; by rewrite Hp).
    apply list_fmap_ext. intros _ k _. unfold item_of.
    by rewrite (dict_get_Permutation kwargs' kwargs).
Qed.

Lemma kwargs_name_sorted_order_independent_witness :
  NoDup (keys [("b", PyInt 2); ("a", PyStr "x")]) /\
  _kwargs_to_experiment_name [("b", PyInt 2); ("a", PyStr "x")] = Ok "a=x,b=2" /\
  _kwargs_to_experiment_name [("a", PyStr "x"); ("b", PyInt 2)]
  = _kwargs_to_experiment_name [("b", PyInt 2); ("a", PyStr "x")].
Proof.
  assert (NoDup (keys [("b", PyInt 2); ("a", PyStr "x")])) as Hnd
    by (apply (bool_decide_unpack _); vm_compute; exact I).
  split; [exact Hnd|]. split; [reflexivity|].
  apply (proj2 (kwargs_name_sorted_order_independent _ Hnd)).
  apply Permutation_swap.
Defined.

(** ** Variant creation *)

Lemma create_variant_eq self args kwargs is_root w :
  _create_experiment_variant self args kwargs is_root w =
  if bool_decide (length args <= 1)%nat then
    match resolve_name args kwargs with
    | Raise e => (Raise e, w)
    | Ok n =>
        match heap w !! self with
        | None => (Raise ReferenceError, w)
        | Some parent =>
            if contains (variants parent) n
            then (Raise (DuplicateVariantError n), w)
            else (Ok (length (heap w)), created self parent n kwargs is_root w)
        end
    end
  else (Raise InvalidArityError, w).
Proof.
  unfold _create_experiment_variant, mbind, M_bind, assert.
  assert (bool_decide (length args = 0%nat) || bool_decide (length args = 1%nat)
          = bool_decide (length args <= 1)%nat) as ->
    by (destruct args as [|? [|? ?]]; done).
  destruct (bool_decide (length args <= 1)%nat); simpl; [|done].
  unfold lift. destruct (resolve_name args kwargs) as [n|e]; simpl; [|done].
  unfold deref. destruct (heap w !! self) as [parent|] eqn:Hp; simpl; [|done].
  destruct (contains (variants parent) n); simpl; [done|].
  unfold Experiment_init, mbind, M_bind, new_object, _register_experiment,
    set_variant, modify, deref, mbind, M_bind; simpl.
  destruct is_root; simpl; [done|].
  rewrite list_lookup_middle by done. done.
Qed.

(** C6.  Let [self] be a node.  [add_variant] and [add_root_variant]
    with more than one positional argument raise the arity assertion
    ([InvalidArityError]); with at most one, when the resolved name (the
    positional argument, else the name derived from the keyword
    arguments) is already a key of the variants of [self], they raise
    the duplicate assertion ([DuplicateVariantError]).  In both cases
    the store is the one before the call, so the variants of [self] are
    unchanged. *)
Theorem variant_creation_rejects w self parent args kwargs :
  heap w !! self = Some parent ->
  ((1 < length args)%nat ->
     add_variant self args kwargs w = (Raise InvalidArityError, w) /\
     add_root_variant self args kwargs w = (Raise InvalidArityError, w)) /\
  (forall n,
     (length args <= 1)%nat ->
     resolve_name args kwargs = Ok n ->
     contains (variants parent) n = true ->
     add_variant self args kwargs w = (Raise (DuplicateVariantError n), w) /\
     add_root_variant self args kwargs w = (Raise (DuplicateVariantError n), w)) /\
  (forall is_root e w',
     _create_experiment_variant self args kwargs is_root w = (Raise e, w') ->
     variants <$> heap w' !! self = Some (variants parent)).
Proof.
  intros Hself. unfold add_variant, add_root_variant. split_and!.
  - intros Hlen. rewrite !create_variant_eq.
    rewrite bool_decide_eq_false_2 by lia. done.
  - intros n Hlen Hn Hdup. rewrite !create_variant_eq.
    rewrite bool_decide_eq_true_2 by done. by rewrite Hn, Hself, Hdup.
  - intros is_root e w'. rewrite create_variant_eq.
    destruct (bool_decide (length args <= 1)%nat).
    + destruct (resolve_name args kwargs); rewrite ?Hself.
      * destruct (contains (variants parent) a); [|done].
        intros [= _ <-]. by rewrite Hself.
      * intros [= _ <-]. by rewrite Hself.
    + intros [= _ <-]. by rewrite Hself.
Qed.

Lemma variant_creation_rejects_witness :
  let w := perform_all
             [NewExperiment "f" None "A" false; AddVariant 0%nat [] [("a", PyInt 1)]]
             init_world in
  (add_variant 0%nat ["x"; "y"] [] w = (Raise InvalidArityError, w) /\
   add_root_variant 0%nat ["x"; "y"] [] w = (Raise InvalidArityError, w)) /\
  (add_variant 0%nat ["a=1"] [] w = (Raise (DuplicateVariantError "a=1"), w) /\
   add_root_variant 0%nat [] [("a", PyInt 1)] w = (Raise (DuplicateVariantError "a=1"), w)).
Proof.
  intros w.
  assert (exists parent, heap w !! 0%nat = Some parent /\
                         contains (variants parent) "a=1" = true) as (parent & Hp & Hc)
    by (eexists; split; reflexivity).
  split.
  - apply (variant_creation_rejects w 0%nat parent ["x"; "y"] [] Hp). simpl. lia.
  - split.
    + apply (variant_creation_rejects w 0%nat parent ["a=1"] [] Hp); [simpl; lia|done|done].
    + apply (variant_creation_rejects w 0%nat parent [] [("a", PyInt 1)] Hp);
        [simpl; lia|done|done].
Defined.

(** ** The traversal of the tree *)

Lemma elem_of_concat {A} (x : A) (ls : list (list A)) :
  x ∈ concat ls <-> exists l, l ∈ ls /\ x ∈ l.
Proof.
  induction ls as [|l ls IH]; simpl.
  - split; [by intros ?%elem_of_nil | by intros (? & ?%elem_of_nil & _)].
  - rewrite elem_of_app, IH. split.
    + intros [Hx|(l' & Hl' & Hx)]; [exists l | exists l']; split; try done;
        [left | by right].
    + intros (l' & [->|Hl']%elem_of_cons & Hx); [by left | right; eauto].
Qed.

(** The loop [variants += g(v)] over the children is the concatenation
    of the results, when every one of them is there. *)
Lemma accumulate_mapM {A B} (g : A -> option (list B)) (xs : list A) (v0 : list B) :
  foldl (fun acc x => vs ← acc; more ← g x; Some (vs ++ more)) (Some v0) xs
  = rest ← mapM g xs; Some (v0 ++ concat rest).
Proof.
  revert v0. induction xs as [|x xs IH]; intros v0; simpl.
  - by rewrite app_nil_r.
  - destruct (g x) as [m|]; simpl.
    + rewrite IH. destruct (mapM g xs); simpl; [|done]. by rewrite app_assoc.
    + clear IH. induction xs as [|y xs IH]; simpl; [done|]. apply IH.
Qed.

Lemma get_all_variants_unfold fuel h self include_roots include_self :
  get_all_variants_fuel (S fuel) h self include_roots include_self
  = ex ← h !! self;
    rest ← mapM (fun nv => get_all_variants_fuel fuel h nv.2 include_roots true)
           (variants ex);
    Some ((if include_self && (negb (is_root ex) || include_roots)
           then [self] else []) ++ concat rest).
Proof.
  simpl. destruct (h !! self) as [ex|]; simpl; [|done]. apply accumulate_mapM.
Qed.

(** On a well-formed heap the traversal finishes within the fuel. *)
Lemma get_all_variants_fuel_total h :
  wf_heap h ->
  forall fuel self include_roots include_self,
    (self < length h)%nat -> (length h - self <= fuel)%nat ->
    is_Some (get_all_variants_fuel fuel h self include_roots include_self).
Proof.
  intros Hwf. induction fuel as [|fuel IH]; intros self ir is_ Hlt Hfuel; [lia|].
  rewrite get_all_variants_unfold.
  destruct (lookup_lt_is_Some_2 h self Hlt) as [ex Hex]. rewrite Hex. simpl.
  assert (is_Some (mapM (fun nv => get_all_variants_fuel fuel h nv.2 ir true)
                     (variants ex))) as [rest ->]; [|by eexists].
  apply mapM_is_Some. eapply Forall_impl; [apply (Hwf self ex Hex)|].
  intros [n c] [Hc1 Hc2]. simpl in *. apply IH; lia.
Qed.

Lemma get_all_variants_total w self include_roots include_self :
  wf_heap (heap w) -> (self < length (heap w))%nat ->
  is_Some (get_all_variants w self include_roots include_self).
Proof.
  intros Hwf Hlt. unfold get_all_variants.
  apply get_all_variants_fuel_total; [done|done|lia].
Qed.

(** A node that is not filtered out is the first of its own traversal. *)
Lemma get_all_variants_self fuel h self include_roots l ex :
  get_all_variants_fuel fuel h self include_roots true = Some l ->
  h !! self = Some ex ->
  is_root ex = false \/ include_roots = true ->
  self ∈ l.
Proof.
  destruct fuel as [|fuel]; [done|]. rewrite get_all_variants_unfold.
  intros H Hex Hincl. rewrite Hex in H. simpl in H.
  destruct (mapM _ _) as [rest|]; simpl in H; [|done].
  injection H as <-. apply elem_of_app. left.
  assert (negb (is_root ex) || include_roots = true) as ->
    by (destruct Hincl as [-> | ->]; [done | apply orb_true_r]).
  left.
Qed.

(** The traversal of a node contains the traversal of each child. *)
Lemma get_all_variants_child fuel h self include_roots include_self l ex n c :
  get_all_variants_fuel (S fuel) h self include_roots include_self = Some l ->
  h !! self = Some ex ->
  (n, c) ∈ variants ex ->
  exists lc, get_all_variants_fuel fuel h c include_roots true = Some lc /\ lc ⊆ l.
Proof.
  rewrite get_all_variants_unfold. intros H Hex Hin. rewrite Hex in H. simpl in H.
  destruct (mapM _ _) as [rest|] eqn:Hrest; simpl in H; [|done].
  injection H as <-. apply mapM_Some in Hrest.
  apply list_elem_of_lookup_1 in Hin as [i Hi].
  destruct (Forall2_lookup_l _ _ _ _ _ Hrest Hi) as (lc & Hlc & Hc). simpl in Hc.
  exists lc. split; [done|]. intros x Hx. apply elem_of_app. right.
  apply elem_of_concat. exists lc. split; [|done]. by eapply list_elem_of_lookup_2.
Qed.

(** Every node of a traversal passed the filter of line 257. *)
Lemma get_all_variants_filter h include_roots :
  forall fuel self include_self l,
    get_all_variants_fuel fuel h self include_roots include_self = Some l ->
    Forall (fun r => exists ex, h !! r = Some ex /\
                       (is_root ex = false \/ include_roots = true)) l.
Proof.
  induction fuel as [|fuel IH]; intros self is_ l; [done|].
  rewrite get_all_variants_unfold.
  destruct (h !! self) as [ex|] eqn:Hex; simpl; [|done].
  destruct (mapM _ _) as [rest|] eqn:Hrest; simpl; [|done].
  intros [= <-]. apply Forall_app. split.
  - destruct (is_ && (negb (is_root ex) || include_roots)) eqn:E; [|apply Forall_nil_2].
    apply Forall_singleton. exists ex. split; [done|].
    apply andb_true_iff in E as [_ E]. apply orb_true_iff in E as [E|E]; [left|by right].
    by destruct (is_root ex).
  - apply mapM_Some in Hrest. apply Forall_forall. intros x Hx.
    apply elem_of_concat in Hx as (lc & Hlc & Hx).
    apply list_elem_of_lookup_1 in Hlc as [i Hi].
    destruct (Forall2_lookup_r _ _ _ _ _ Hrest Hi) as (nv & _ & Hnv).
    apply IH in Hnv. rewrite Forall_forall in Hnv. by apply Hnv.
Qed.

(** ** Invariants of the store *)

Lemma setitem_values_elem {V} (d : dict V) k v v' :
  v' ∈ values (setitem d k v) -> v' = v \/ v' ∈ values d.
Proof.
  unfold values. induction d as [|[k0 v0] d IH]; simpl.
  - intros ?%list_elem_of_singleton. by left.
  - destruct (String.eqb_spec k0 k) as [->|Hne]; simpl.
    + intros [->|H]%elem_of_cons; [by left | right; by right].
    + intros [->|H]%elem_of_cons; [right; left|].
      destruct (IH H) as [->|?]; [by left | right; by right].
Qed.

Lemma extends_refl w : extends w w.
Proof. intros i ex Hi. by exists ex. Qed.

Lemma extends_trans w1 w2 w3 : extends w1 w2 -> extends w2 w3 -> extends w1 w3.
Proof.
  intros H12 H23 i ex Hi.
  destruct (H12 i ex Hi) as (ex2 & Hi2 & Hn2 & Hr2 & Hv2).
  destruct (H23 i ex2 Hi2) as (ex3 & Hi3 & Hn3 & Hr3 & Hv3).
  exists ex3. split_and!; [done|congruence|congruence|auto].
Qed.

Lemma Experiment_init_eq f d c o n r w :
  Experiment_init f d c o n r w
  = (Ok (length (heap w)),
     {| heap := heap w ++
          [{| name := n; function := f; _display_function := d;
              _one_liner_results := o; _comparison_function := c;
              variants := []; _notes := []; is_root := r |}];
        GLOBAL_EXPERIMENT_LIBRARY :=
          if r then GLOBAL_EXPERIMENT_LIBRARY w
          else setitem (GLOBAL_EXPERIMENT_LIBRARY w) n (length (heap w));
        keep_record_by_default := keep_record_by_default w;
        _TEST_MODE := _TEST_MODE w;
        records := records w;
        console := console w |}).
Proof.
  unfold Experiment_init, mbind, M_bind, new_object, _register_experiment,
    modify, deref, mbind, M_bind; simpl.
  destruct r; simpl; [done|]. rewrite list_lookup_middle by done. done.
Qed.

Section StoreSteps.
Context (w : World) (Hwf : wf_world w).

Lemma library_refs_extend w' :
  extends w w' ->
  Forall (fun r => exists ex, heap w' !! r = Some ex /\ is_root ex = false)
    (values (GLOBAL_EXPERIMENT_LIBRARY w)).
Proof.
  intros Hext. destruct Hwf as [_ Hlib]. eapply Forall_impl; [exact Hlib|].
  intros r (ex & Hr & Hroot). destruct (Hext r ex Hr) as (ex' & Hr' & _ & Hroot' & _).
  exists ex'. split; [done|congruence].
Qed.

Lemma registered_wf_library w' n r ex :
  extends w w' -> heap w' !! r = Some ex -> is_root ex = false ->
  GLOBAL_EXPERIMENT_LIBRARY w' = setitem (GLOBAL_EXPERIMENT_LIBRARY w) n r ->
  wf_library w'.
Proof.
  intros Hext Hr Hroot Hlib. unfold wf_library. rewrite Hlib.
  apply Forall_forall. intros v [->|Hv]%setitem_values_elem; [by exists ex|].
  pose proof (library_refs_extend w' Hext) as H. rewrite Forall_forall in H. auto.
Qed.

Lemma init_extends f d c o n r : extends w (Experiment_init f d c o n r w).2.
Proof.
  rewrite Experiment_init_eq. intros i ex Hi. exists ex. simpl.
  split; [|done]. rewrite lookup_app_l; [done|]. by eapply lookup_lt_Some.
Qed.

Lemma init_wf f d c o n r : wf_world (Experiment_init f d c o n r w).2.
Proof.
  pose proof (init_extends f d c o n r) as Hext.
  rewrite Experiment_init_eq in *. simpl in *. split.
  - intros i ex. simpl. rewrite length_app. simpl.
    destruct (decide (i < length (heap w))%nat) as [Hlt|Hge].
    + rewrite lookup_app_l by done. intros Hi.
      eapply Forall_impl; [apply (proj1 Hwf i ex Hi)|]. simpl. intros; lia.
    + intros Hi. assert (i = length (heap w)) as ->.
      { apply lookup_lt_Some in Hi. rewrite length_app in Hi. simpl in Hi. lia. }
      rewrite list_lookup_middle in Hi by done. injection Hi as <-. apply Forall_nil_2.
  - destruct r.
    + apply (library_refs_extend _ Hext).
    + eapply (registered_wf_library _ n (length (heap w)));
        [exact Hext | simpl; by rewrite list_lookup_middle | done | done].
Qed.

Context (self : ref) (parent : Experiment) (Hself : heap w !! self = Some parent).
Context (n : string) (Hfresh : contains (variants parent) n = false).

Lemma created_parent kwargs is_root :
  heap (created self parent n kwargs is_root w) !! self
  = Some (with_variant n (length (heap w)) parent).
Proof.
  simpl. rewrite list_lookup_alter_eq, lookup_app_l, Hself; [done|].
  by eapply lookup_lt_Some.
Qed.

Lemma created_node kwargs is_root :
  heap (created self parent n kwargs is_root w) !! length (heap w)
  = Some (variant_node parent n kwargs is_root).
Proof.
  simpl. rewrite list_lookup_alter_ne, list_lookup_middle; [done|done|].
  apply lookup_lt_Some in Hself. lia.
Qed.

Lemma created_variants :
  variants (with_variant n (length (heap w)) parent)
  = variants parent ++ [(n, length (heap w))].
Proof. simpl. apply setitem_fresh. by apply contains_false. Qed.

Lemma created_extends kwargs is_root :
  extends w (created self parent n kwargs is_root w).
Proof.
  intros i ex Hi. destruct (decide (i = self)) as [->|Hne].
  - rewrite created_parent. assert (ex = parent) as -> by congruence.
    eexists. split; [done|]. split_and!; [done|done|].
    intros nv Hnv. rewrite created_variants. apply elem_of_app. by left.
  - exists ex. split; [|done]. simpl.
    rewrite list_lookup_alter_ne, lookup_app_l; [done| |done].
    by eapply lookup_lt_Some.
Qed.

Lemma created_wf kwargs is_root :
  wf_world (created self parent n kwargs is_root w).
Proof.
  pose proof (created_extends kwargs is_root) as Hext.
  pose proof (lookup_lt_Some _ _ _ Hself) as Hlt.
  split.
  - intros i ex Hi.
    assert (length (heap (created self parent n kwargs is_root w))
            = S (length (heap w))) as ->
      by (simpl; rewrite length_alter, length_app; simpl; lia).
    destruct (decide (i = self)) as [->|Hne].
    + rewrite created_parent in Hi. injection Hi as <-.
      rewrite created_variants. apply Forall_app. split.
      * eapply Forall_impl; [apply (proj1 Hwf self parent Hself)|]. simpl. intros; lia.
      * apply Forall_singleton. simpl. lia.
    + simpl in Hi. rewrite list_lookup_alter_ne in Hi by done.
      destruct (decide (i < length (heap w))%nat) as [Hi'|Hi'].
      * rewrite lookup_app_l in Hi by done.
        eapply Forall_impl; [apply (proj1 Hwf i ex Hi)|]. simpl. intros; lia.
      * assert (i = length (heap w)) as ->.
        { apply lookup_lt_Some in Hi. rewrite length_app in Hi. simpl in Hi. lia. }
        rewrite list_lookup_middle in Hi by done. injection Hi as <-. apply Forall_nil_2.
  - destruct is_root.
    + apply (library_refs_extend _ Hext).
    + eapply (registered_wf_library _ _ (length (heap w)));
        [exact Hext | apply created_node | done | done].
Qed.
End StoreSteps.

(** A variant creation either raises and leaves the store as it was, or
    allocates the node. *)
Lemma create_variant_cases self args kwargs is_root w :
  (exists e, _create_experiment_variant self args kwargs is_root w = (Raise e, w)) \/
  (exists parent n,
      heap w !! self = Some parent /\
      contains (variants parent) n = false /\
      resolve_name args kwargs = Ok n /\
      _create_experiment_variant self args kwargs is_root w
      = (Ok (length (heap w)), created self parent n kwargs is_root w)).
Proof.
  rewrite create_variant_eq.
  destruct (bool_decide (length args <= 1)%nat); [|left; by eexists].
  destruct (resolve_name args kwargs) as [n|e]; [|left; by eexists].
  destruct (heap w !! self) as [parent|] eqn:Hself; [|left; by eexists].
  destruct (contains (variants parent) n) eqn:Hc; [left; by eexists|].
  right. by exists parent, n.
Qed.

Lemma perform_step o w :
  wf_world w -> wf_world (perform o w).2 /\ extends w (perform o w).2.
Proof.
  intros Hwf. destruct o as [f d n r|self args kwargs|self args kwargs|]; simpl.
  - unfold mbind, M_bind. rewrite Experiment_init_eq. simpl.
    pose proof (init_wf w Hwf (Function f) d None None n r) as H1.
    pose proof (init_extends w (Function f) d None None n r) as H2.
    rewrite Experiment_init_eq in H1, H2. done.
  - unfold mbind, M_bind, add_variant.
    destruct (create_variant_cases self args kwargs false w)
      as [[e ->]|(parent & n & Hself & Hfresh & _ & ->)]; simpl.
    + split; [done | apply extends_refl].
    + split; [by apply created_wf | by apply created_extends].
  - unfold mbind, M_bind, add_root_variant.
    destruct (create_variant_cases self args kwargs true w)
      as [[e ->]|(parent & n & Hself & Hfresh & _ & ->)]; simpl.
    + split; [done | apply extends_refl].
    + split; [by apply created_wf | by apply created_extends].
  - split; [|intros i ex Hi; by exists ex]. split; [apply Hwf | apply Forall_nil_2].
Qed.

Lemma perform_all_steps ops w :
  wf_world w -> wf_world (perform_all ops w) /\ extends w (perform_all ops w).
Proof.
  revert w. induction ops as [|o ops IH]; intros w Hwf; simpl.
  - split; [done | apply extends_refl].
  - destruct (perform_step o w Hwf) as [Hwf1 Hext1].
    destruct (IH _ Hwf1) as [Hwf2 Hext2].
    split; [done | by eapply extends_trans].
Qed.

Lemma init_world_wf : wf_world init_world.
Proof. split; [by intros i ex ?| apply Forall_nil_2]. Qed.

Lemma load_experiment_Ok id w r :
  (load_experiment id w).1 = Ok r -> r ∈ values (GLOBAL_EXPERIMENT_LIBRARY w).
Proof.
  unfold load_experiment, getitem.
  destruct (dict_get (GLOBAL_EXPERIMENT_LIBRARY w) id) as [v|] eqn:E; simpl; [|done].
  intros [= ->]. apply dict_get_Some in E. unfold values.
  apply list_elem_of_fmap. by exists (id, r).
Qed.

(** C7, as amended.  After any calls [ops], let [add_root_variant] on
    [self] return the node [ex]; then after any further calls [ops']:
    [ex] is not among the nodes of the library, no lookup returns it,
    and the traversal of [self] finishes and contains [ex] exactly when
    [include_roots] is true; no traversal without roots, of any node,
    contains [ex]. *)
Theorem root_variant_not_registered_but_traversed
    ops self args kwargs ex w1 ops' :
  add_root_variant self args kwargs (perform_all ops init_world) = (Ok ex, w1) ->
  (let w2 := perform_all ops' w1 in
   (ex ∉ values (GLOBAL_EXPERIMENT_LIBRARY w2)) /\
   (forall id, (load_experiment id w2).1 <> Ok ex) /\
   (forall include_roots include_self,
      exists l, get_all_variants w2 self include_roots include_self = Some l /\
                (ex ∈ l <-> include_roots = true)) /\
   (forall node include_self l,
      get_all_variants w2 node false include_self = Some l -> ex ∉ l)).
Proof.
  intros Hadd w2.
  destruct (perform_all_steps ops init_world init_world_wf) as [Hwf0 _].
  set (w0 := perform_all ops init_world) in *.
  unfold add_root_variant in Hadd.
  destruct (create_variant_cases self args kwargs true w0)
    as [[e He]|(parent & n & Hself & Hfresh & _ & He)]; rewrite He in Hadd; [done|].
  injection Hadd as <- <-.
  pose proof (created_wf w0 Hwf0 self parent Hself n Hfresh kwargs true) as Hwf1.
  destruct (perform_all_steps ops' _ Hwf1) as [Hwf2 Hext2]. fold w2 in Hwf2, Hext2.
  destruct (Hext2 _ _ (created_node w0 self parent Hself n kwargs true))
    as (node & Hnode & _ & Hroot & _). simpl in Hroot.
  destruct (Hext2 _ _ (created_parent w0 self parent Hself n kwargs true))
    as (parent' & Hparent' & _ & _ & Hvars).
  assert ((n, length (heap w0)) ∈ variants parent') as Hchild.
  { apply Hvars. rewrite (created_variants w0 parent n Hfresh).
    apply elem_of_app. right. left. }
  assert (forall (node0 : ref) include_self l,
             get_all_variants w2 node0 false include_self = Some l ->
             length (heap w0) ∉ l) as Hexcl.
  { intros node0 is_ l Hl Hin. apply get_all_variants_filter in Hl.
    rewrite Forall_forall in Hl. destruct (Hl _ Hin) as (ex' & Hex' & [?|?]); [|done].
    congruence. }
  assert (length (heap w0) ∉ values (GLOBAL_EXPERIMENT_LIBRARY w2)) as Hlib.
  { intros Hin. destruct Hwf2 as [_ Hl]. unfold wf_library in Hl.
    rewrite Forall_forall in Hl. destruct (Hl _ Hin) as (ex' & Hex' & ?). congruence. }
  split_and!; [done| |  |done].
  - intros id Hid. by apply load_experiment_Ok in Hid.
  - intros ir is_.
    destruct (get_all_variants_total w2 self ir is_) as [l Hl];
      [apply Hwf2 | by eapply lookup_lt_Some |].
    exists l. split; [done|]. destruct ir.
    + split; [done|]. intros _. unfold get_all_variants in Hl.
      destruct (get_all_variants_child _ _ _ _ _ _ _ _ _ Hl Hparent' Hchild)
        as (lc & Hlc & Hsub).
      apply Hsub. eapply get_all_variants_self; [exact Hlc | exact Hnode | by right].
    + split; [|done]. intros Hin. exfalso. by eapply Hexcl.
Qed.

Lemma root_variant_not_registered_but_traversed_witness :
  let w0 := perform_all [NewExperiment "f" None "A" false] init_world in
  exists w1,
    add_root_variant 0%nat ["r"] [] w0 = (Ok 1%nat, w1) /\
    (let w2 := perform_all [AddVariant 1%nat [] [("a", PyInt 1)]] w1 in
     (1%nat ∉ values (GLOBAL_EXPERIMENT_LIBRARY w2)) /\
     (forall id, (load_experiment id w2).1 <> Ok 1%nat) /\
     (forall include_roots include_self,
        exists l, get_all_variants w2 0%nat include_roots include_self = Some l /\
                  (1%nat ∈ l <-> include_roots = true)) /\
     (forall node include_self l,
        get_all_variants w2 node false include_self = Some l -> 1%nat ∉ l)).
Proof.
  intros w0. eexists. split; [reflexivity|].
  apply (root_variant_not_registered_but_traversed
           [NewExperiment "f" None "A" false] 0%nat ["r"] []).
  reflexivity.
Defined.

(** C7, as stated, fails on the lookup by name: the root variant
    [A.b.c] of [A] is not registered, yet after [A.b] and its variant
    [c] are added the lookup of its name succeeds, with another node. *)
Lemma root_variant_name_is_loadable :
  let w0 := perform_all [NewExperiment "f" None "A" false] init_world in
  exists w1,
    add_root_variant 0%nat ["b.c"] [] w0 = (Ok 1%nat, w1) /\
    (let w2 := perform_all [AddVariant 0%nat ["b"] []; AddVariant 2%nat ["c"] []] w1 in
     name <$> heap w2 !! 1%nat = Some "A.b.c" /\
     is_root <$> heap w2 !! 1%nat = Some true /\
     (load_experiment "A.b.c" w2).1 = Ok 3%nat /\
     ~ (exists e, (load_experiment "A.b.c" w2).1 = Raise e)).
Proof.
  intros w0. eexists. split; [reflexivity|]. simpl.
  split_and!; [reflexivity..|]. intros [e He]. vm_compute in He. discriminate He.
Qed.

(** ** Records of the variants *)

Lemma get_latest_record_no_raise env ex only_completed :
  get_latest_record env ex only_completed false
  = Ok (last (get_records env ex only_completed)).
Proof.
  unfold get_latest_record. case_bool_decide as Hlen; [|done].
  by destruct (get_records env ex only_completed).
Qed.

Lemma entries_of_nodes env w only_completed (vs : list ref) (exs : list Experiment) :
  Forall2 (fun r ex => heap w !! r = Some ex) vs exs ->
  (fun ex => (name ex, last (get_records env ex only_completed))) <$> exs
  = entry_of env w only_completed <$> vs.
Proof.
  induction 1 as [|r ex vs exs Hr _ IH]; simpl; [done|]. f_equal; [|done].
  unfold entry_of, name_of, latest_of. by rewrite Hr.
Qed.

Lemma filter_is_Some_Forall {A} (l : list (option A)) :
  Forall is_Some (filter (fun x => is_Some x) l).
Proof. apply Forall_forall. by intros x [? _]%list_elem_of_filter. Qed.

(** C8, as amended.  For a node [self] of a store built by any calls:
    the traversal [get_all_variants(include_self=True)] finishes; with
    [only_last] and [flat], [get_variant_records] returns a list of
    which no element is [None]; with [only_last] and not [flat] it
    returns an ordered dictionary keyed by the names of the nodes of the
    traversal, one entry for each name; when these names are pairwise
    distinct, it has exactly one entry per node, its name with its
    latest record or [None], in the order of the traversal. *)
Theorem variant_records_shape env ops self only_completed :
  (self < length (heap (perform_all ops init_world)))%nat ->
  (let w := perform_all ops init_world in
   exists vs,
     get_all_variants w self false true = Some vs /\
     (exists l,
         get_variant_records env w self only_completed true true
         = Some (Ok (FlatLast l)) /\
         Forall is_Some l) /\
     (exists d,
         get_variant_records env w self only_completed true false
         = Some (Ok (DictLast d)) /\
         NoDup (keys d) /\
         (forall k, k ∈ keys d <-> k ∈ name_of w <$> vs) /\
         (NoDup (name_of w <$> vs) -> d = entry_of env w only_completed <$> vs))).
Proof.
  intros Hself w.
  destruct (perform_all_steps ops init_world init_world_wf) as [Hwf _]. fold w in Hwf.
  destruct (get_all_variants_total w self false true) as [vs Hvs]; [apply Hwf|done|].
  exists vs. split; [done|].
  assert (exists exs, mapM (fun ex => heap w !! ex) vs = Some exs) as [exs Hexs].
  { apply mapM_is_Some. apply get_all_variants_filter in Hvs.
    eapply Forall_impl; [exact Hvs|]. intros r (ex & Hr & _). by exists ex. }
  pose proof (proj1 (mapM_Some _ _ _) Hexs) as Hnodes.
  assert (comprehension
            (fun ex => result_bind (get_latest_record env ex only_completed false)
                         (fun record => Ok (name ex, record))) exs
          = Ok (entry_of env w only_completed <$> vs)) as Hpairs.
  { rewrite <-(entries_of_nodes env w only_completed vs exs Hnodes).
    apply comprehension_Ok. intros ex _. by rewrite get_latest_record_no_raise. }
  assert (keys (entry_of env w only_completed <$> vs) = name_of w <$> vs) as Hkeys.
  { unfold keys. by rewrite <-list_fmap_compose. }
  unfold get_variant_records. rewrite Hvs. simpl. rewrite Hexs. simpl.
  rewrite Hpairs. simpl. split.
  - eexists. split; [done|]. apply filter_is_Some_Forall.
  - eexists. split; [done|]. split_and!.
    + apply OrderedDict_keys_NoDup.
    + intros k. by rewrite OrderedDict_keys_elem, Hkeys.
    + intros Hnd. apply OrderedDict_NoDup. by rewrite Hkeys.
Qed.

Lemma variant_records_shape_witness :
  let w := perform_all
             [NewExperiment "f" None "A" false; AddVariant 0%nat [] [("a", PyInt 1)]]
             init_world in
  (0 < length (heap w))%nat /\
  exists vs,
    get_all_variants w 0%nat false true = Some vs /\
    (exists l,
        get_variant_records example_env w 0%nat true true true
        = Some (Ok (FlatLast l)) /\
        Forall is_Some l) /\
    (exists d,
        get_variant_records example_env w 0%nat true true false
        = Some (Ok (DictLast d)) /\
        NoDup (keys d) /\
        (forall k, k ∈ keys d <-> k ∈ name_of w <$> vs) /\
        (NoDup (name_of w <$> vs) -> d = entry_of example_env w true <$> vs)).
Proof.
  intros w. split; [simpl; lia|].
  apply (variant_records_shape example_env
           [NewExperiment "f" None "A" false; AddVariant 0%nat [] [("a", PyInt 1)]]
           0%nat true).
  simpl. lia.
Defined.

(** C8, as stated, fails on the count of entries: [A] has the variants
    [b.c] and [b], and [b] has the variant [c]; the traversal has four
    nodes, two of them named [A.b.c], and the dictionary three entries. *)
Lemma variant_records_merge_equal_names :
  let w := perform_all
             [NewExperiment "f" None "A" false; AddVariant 0%nat ["b.c"] [];
              AddVariant 0%nat ["b"] []; AddVariant 2%nat ["c"] []]
             init_world in
  get_all_variants w 0%nat false true = Some [0; 1; 2; 3]%nat /\
  name_of w <$> [0; 1; 2; 3]%nat = ["A"; "A.b.c"; "A.b"; "A.b.c"] /\
  get_variant_records example_env w 0%nat true true false
  = Some (Ok (DictLast [("A", None); ("A.b.c", None); ("A.b", None)])).
Proof. intros w. split_and!; reflexivity. Qed.

(** ** The run life cycle *)

Lemma bind_unfold {A B} (f : A -> M B) (m : M A) w :
  (m ≫= f) w
  = match m w with
    | (Ok a, w') => f a w'
    | (Raise e, w') => (Raise e, w')
    end.
Proof. reflexivity. Qed.

Lemma alter_snoc {A} (f : A -> A) (l : list A) (x : A) :
  alter f (length l) (l ++ [x]) = l ++ [f x].
Proof. induction l as [|y l IH]; simpl; [done|]. by f_equal. Qed.

(** A method of the record that a run has just created acts on the last
    record of the store. *)
Lemma update_record_recording n w r f :
  n = length (records w) ->
  update_record n f (recording w r) = (Ok tt, recording w (f r)).
Proof.
  intros ->. unfold update_record, modify, recording, with_records. cbn [records].
  by rewrite alter_snoc.
Qed.

Lemma set_field_recording n w r field value :
  n = length (records w) ->
  set_field n field value (recording w r)
  = (Ok tt, recording w (add_info field value r)).
Proof. apply update_record_recording. Qed.

Lemma write_error_trace_recording n w r e print_too :
  n = length (records w) ->
  write_error_trace n e print_too (recording w r)
  = (Ok tt,
     recording (if print_too then with_console (console w ++ [PrintedTrace e]) w else w)
       (with_error_trace e r)).
Proof.
  intros Hn. unfold write_error_trace.
  rewrite bind_unfold, update_record_recording by done. by destruct print_too.
Qed.

Lemma add_notes_recording n w r l :
  n = length (records w) ->
  for_each l (add_note n) (recording w r)
  = (Ok tt, recording w (foldl (fun r note => with_note note r) r l)).
Proof.
  intros Hn. revert r. induction l as [|note l IH]; intros r; [done|].
  cbn [for_each foldl]. rewrite bind_unfold. unfold add_note at 1.
  rewrite update_record_recording by done. apply IH.
Qed.

Ltac run_step lem := rewrite bind_unfold, lem by reflexivity; cbv beta iota zeta.

Lemma run_try_eq env ex n w r :
  n = length (records w) ->
  run_try env ex (now env) n (recording w r)
  = match call env (function ex) (_TEST_MODE w) with
    | Ok results =>
        (Ok (Continue n results),
         recording w (add_info STATUS (InfoStatus FINISHED) (started env ex n r)))
    | Raise e => (Raise e, recording w (started env ex n r))
    end.
Proof.
  intros ->. unfold run_try. do 11 run_step set_field_recording.
  rewrite bind_unfold. unfold call_function at 1. cbn [_TEST_MODE recording with_records].
  destruct (call env (function ex) (_TEST_MODE w)) as [results|e]; [|done].
  run_step set_field_recording. done.
Qed.

Lemma run_finally_eq env n w r :
  n = length (records w) ->
  run_finally env n (recording w r)
  = (Ok tt,
     recording w
       (add_info FIGS (InfoList (get_figure_locs env n))
       (add_info N_FIGS (InfoNum (Z.of_nat (length (get_figure_locs env n))))
       (add_info RUNTIME (InfoNum (elapsed env)) r)))).
Proof.
  intros ->. unfold run_finally. do 2 run_step set_field_recording.
  by rewrite set_field_recording.
Qed.

(** Leaving the [try] statement and the scope of the record. *)
Ltac leave_scope :=
  cbv beta iota zeta;
  rewrite run_finally_eq by reflexivity; cbv beta iota;
  unfold record_experiment_exit;
  rewrite update_record_recording by reflexivity; reflexivity.

(** The [with] statement of [run], by the outcome of the callable. *)
Lemma run_with_eq env ex a p s temp w :
  clashes (experiment_record_kwargs a) = false ->
  with_as
    (record_experiment (name ex) p s temp (now env) (experiment_record_kwargs a))
    record_experiment_exit
    (fun exp_rec =>
       try_except_finally
         (run_try env ex (now env) exp_rec)
         (run_except (raise_exceptions a) exp_rec)
         (run_finally env exp_rec)) w
  = let n := length (records w) in
    let r := started env ex n (new_record (name ex) temp) in
    match call env (function ex) (_TEST_MODE w) with
    | Ok results =>
        (Ok (Continue n results),
         recording w (finalized env n (add_info STATUS (InfoStatus FINISHED) r)))
    | Raise e =>
        if isinstance_KeyboardInterrupt e then
          (Raise e,
           recording w
             (finalized env n
                (with_error_trace e (add_info STATUS (InfoStatus STOPPED) r))))
        else if isinstance_Exception e then
          (if truthy (raise_exceptions a) then Raise e else Ok (Return n),
           recording
             (if negb (truthy (raise_exceptions a))
              then with_console (console w ++ [PrintedTrace e]) w else w)
             (finalized env n
                (with_error_trace e (add_info STATUS (InfoStatus ERROR) r))))
        else (Raise e, recording w (finalized env n r))
    end.
Proof.
  intros Hclash. unfold with_as. rewrite bind_unfold.
  unfold record_experiment. rewrite Hclash. cbv beta iota zeta.
  unfold try_except_finally at 1. unfold try_except_finally at 1.
  rewrite run_try_eq by done.
  destruct (call env (function ex) (_TEST_MODE w)) as [results|e].
  { leave_scope. }
  unfold run_except.
  destruct (isinstance_KeyboardInterrupt e).
  { run_step set_field_recording. run_step write_error_trace_recording.
    unfold raise. leave_scope. }
  destruct (isinstance_Exception e); [|leave_scope].
  run_step set_field_recording. run_step write_error_trace_recording.
  destruct (truthy (raise_exceptions a)); cbn [negb]; unfold raise, mret, M_ret;
    leave_scope.
Qed.

Lemma to_console_recording ev w r :
  to_console ev (recording w r)
  = (Ok tt, recording (with_console (console w ++ [ev]) w) r).
Proof. reflexivity. Qed.

Lemma set_test_mode_recording state w r :
  set_test_mode state (recording w r) = (Ok tt, recording (with_test_mode state w) r).
Proof. reflexivity. Qed.

(** The statements after the [with] block. *)
Lemma run_after_eq env ex display_results mode old n w r results :
  n = length (records w) ->
  run_after env ex display_results mode old n results (recording w r)
  = let r' := noted ex (with_result results r) in
    let line := LoggerInfo (border +:+ " Done " +:+ mode +:+ " Experiment: "
                            +:+ name ex +:+ " " +:+ border) in
    match display_call ex display_results with
    | Some d =>
        match display env d results with
        | Ok _ =>
            (Ok n,
             recording
               (with_test_mode old
                  (with_console ((console w ++ [Displayed d results]) ++ [line]) w)) r')
        | Raise e =>
            (Raise e, recording (with_console (console w ++ [Displayed d results]) w) r')
        end
    | None =>
        (Ok n, recording (with_test_mode old (with_console (console w ++ [line]) w)) r')
    end.
Proof.
  intros Hn. unfold run_after, display_call.
  rewrite bind_unfold. unfold save_result at 1.
  rewrite update_record_recording by done. cbv beta iota.
  rewrite bind_unfold, add_notes_recording by done. cbv beta iota.
  fold (noted ex (with_result results r)).
  rewrite bind_unfold.
  destruct (display_function ex) as [d|]; [destruct (truthy display_results)|].
  - unfold call_display. rewrite bind_unfold, to_console_recording. cbv beta iota.
    unfold lift. destruct (display env d results) as [[]|e]; [|done].
    unfold logger_info. rewrite bind_unfold, to_console_recording. cbv beta iota.
    rewrite bind_unfold, set_test_mode_recording. done.
  - unfold mret at 1, M_ret at 1.
    unfold logger_info. rewrite bind_unfold, to_console_recording. cbv beta iota.
    rewrite bind_unfold, set_test_mode_recording. done.
  - unfold mret at 1, M_ret at 1.
    unfold logger_info. rewrite bind_unfold, to_console_recording. cbv beta iota.
    rewrite bind_unfold, set_test_mode_recording. done.
Qed.

(** [run], by the outcome of the callable. *)
Lemma run_eq env w self ex a :
  heap w !! self = Some ex ->
  clashes (experiment_record_kwargs a) = false ->
  run env self a w
  = let tm := effective_test_mode a w in
    let w1 := entered ex a w in
    let n := length (records w) in
    let r := started env ex n
               (new_record (name ex) (negb (truthy (effective_keep_record a w)))) in
    match call env (function ex) tm with
    | Ok results =>
        run_after env ex (display_results a) (mode_of tm) (_TEST_MODE w) n results
          (recording w1 (finalized env n (add_info STATUS (InfoStatus FINISHED) r)))
    | Raise e =>
        if isinstance_KeyboardInterrupt e then
          (Raise e,
           recording w1
             (finalized env n
                (with_error_trace e (add_info STATUS (InfoStatus STOPPED) r))))
        else if isinstance_Exception e then
          (if truthy (raise_exceptions a) then Raise e else Ok n,
           recording
             (if negb (truthy (raise_exceptions a))
              then with_console (console w1 ++ [PrintedTrace e]) w1 else w1)
             (finalized env n
                (with_error_trace e (add_info STATUS (InfoStatus ERROR) r))))
        else (Raise e, recording w1 (finalized env n r))
    end.
Proof.
  intros Hself Hclash. unfold run.
  rewrite bind_unfold. unfold deref at 1. rewrite Hself. cbv beta iota.
  rewrite bind_unfold. unfold is_test_mode at 1, gets at 1. cbv beta iota zeta.
  rewrite bind_unfold. unfold gets at 1. cbv beta iota zeta.
  rewrite bind_unfold. unfold is_test_mode at 1, gets at 1. cbv beta iota zeta.
  rewrite bind_unfold. unfold set_test_mode at 1, modify at 1. cbv beta iota zeta.
  rewrite bind_unfold. unfold logger_info at 1, to_console at 1, modify at 1.
  cbv beta iota zeta.
  rewrite bind_unfold, run_with_eq by done. cbv beta iota zeta.
  fold (effective_test_mode a w). fold (effective_keep_record a w).
  fold (mode_of (effective_test_mode a w)).
  fold (start_line ex (effective_test_mode a w)).
  change (with_console _ (with_test_mode (effective_test_mode a w) w))
    with (entered ex a w).
  change (_TEST_MODE (entered ex a w)) with (effective_test_mode a w).
  change (records (entered ex a w)) with (records w).
  destruct (call env (function ex) (effective_test_mode a w)) as [results|e]; [done|].
  destruct (isinstance_KeyboardInterrupt e); [done|].
  destruct (isinstance_Exception e); [|done].
  by destruct (truthy (raise_exceptions a)).
Qed.

Lemma record_of_run_recording w w1 r :
  records w1 = records w -> record_of_run w (recording w1 r) = Some r.
Proof.
  intros H. unfold record_of_run, recording, with_records. cbn [records].
  rewrite H. by apply list_lookup_middle.
Qed.

Lemma printed_entered ex a w r :
  printed w (recording (entered ex a w) r)
  = [LoggerInfo (start_line ex (effective_test_mode a w))].
Proof. unfold printed. cbn. apply drop_app_length. Qed.

Lemma isinstance_Exception_not_interrupt e :
  isinstance_Exception e = true -> isinstance_KeyboardInterrupt e = false.
Proof. by destruct e. Qed.

(** C2.  When the callable of the node raises [KeyboardInterrupt], the
    run raises it to the caller, whatever [raise_exceptions] is; the
    record of the run has the status [STOPPED] and the trace of the
    interruption, and no trace went to the console. *)
Theorem interruption_stops_and_propagates env w self ex a :
  heap w !! self = Some ex ->
  clashes (experiment_record_kwargs a) = false ->
  call env (function ex) (effective_test_mode a w) = Raise KeyboardInterrupt ->
  exists w' r,
    run env self a w = (Raise KeyboardInterrupt, w') /\
    record_of_run w w' = Some r /\
    get_status r = Some STOPPED /\
    error_trace r = Some KeyboardInterrupt /\
    (forall e, PrintedTrace e ∉ printed w w').
Proof.
  intros Hself Hclash Hcall. rewrite (run_eq env w self ex a Hself Hclash).
  cbv zeta. rewrite Hcall. cbn [isinstance_KeyboardInterrupt].
  eexists _, _. split; [reflexivity|]. split; [by apply record_of_run_recording|].
  split; [reflexivity|]. split; [reflexivity|].
  intros e. rewrite printed_entered. by intros [=]%list_elem_of_singleton.
Qed.

(** C3, as amended.  When the callable raises an exception [e] that is
    an instance of [Exception], the record of the run has the status
    [ERROR] and the trace of [e]; the trace goes to the console exactly
    when [raise_exceptions] is false; the run raises [e] when
    [raise_exceptions] is true and returns the record otherwise. *)
Theorem error_is_recorded_then_raised_or_returned env w self ex a e :
  heap w !! self = Some ex ->
  clashes (experiment_record_kwargs a) = false ->
  isinstance_Exception e = true ->
  call env (function ex) (effective_test_mode a w) = Raise e ->
  exists w' r,
    run env self a w
    = (if truthy (raise_exceptions a) then Raise e else Ok (length (records w)), w') /\
    record_of_run w w' = Some r /\
    get_status r = Some ERROR /\
    error_trace r = Some e /\
    (PrintedTrace e ∈ printed w w' <-> truthy (raise_exceptions a) = false).
Proof.
  intros Hself Hclash He Hcall. rewrite (run_eq env w self ex a Hself Hclash).
  cbv zeta. rewrite Hcall, (isinstance_Exception_not_interrupt e He), He.
  eexists _, _. split; [reflexivity|].
  split; [apply record_of_run_recording; by destruct (truthy (raise_exceptions a))|].
  split; [reflexivity|]. split; [reflexivity|].
  destruct (truthy (raise_exceptions a)); cbn [negb].
  - rewrite printed_entered. split; [|done]. by intros [=]%list_elem_of_singleton.
  - split; [done|]. intros _. unfold printed. cbn.
    rewrite <-app_assoc, drop_app_length. right. left.
Qed.

Lemma noted_saved_result ex r : saved_result (noted ex r) = saved_result r.
Proof.
  unfold noted. revert r. induction (_notes ex) as [|n l IH]; intros r; [done|].
  cbn [foldl]. by rewrite IH.
Qed.

(** C4, as amended.  The record of a run holds a saved result exactly
    when the callable returned, and then it is what the callable
    returned; when the callable raised, whether the exception is an
    interruption, is handled and the record returned, or propagates,
    no result is saved. *)
Theorem result_saved_on_normal_completion_only env w self ex a :
  heap w !! self = Some ex ->
  clashes (experiment_record_kwargs a) = false ->
  exists r,
    record_of_run w (run env self a w).2 = Some r /\
    saved_result r
    = match call env (function ex) (effective_test_mode a w) with
      | Ok results => Some results
      | Raise _ => None
      end.
Proof.
  intros Hself Hclash. rewrite (run_eq env w self ex a Hself Hclash). cbv zeta.
  destruct (call env (function ex) (effective_test_mode a w)) as [results|e].
  - rewrite run_after_eq by reflexivity. cbv zeta.
    destruct (display_call ex (display_results a)) as [d|];
      [destruct (display env d results)|]; cbn [snd].
    all: eexists; split; [by apply record_of_run_recording|].
    all: by rewrite noted_saved_result.
  - destruct (isinstance_KeyboardInterrupt e); [|destruct (isinstance_Exception e)];
      cbn [snd].
    all: eexists; split;
      [apply record_of_run_recording; by destruct (truthy (raise_exceptions a))|done].
Qed.

Lemma interruption_stops_and_propagates_witness :
  let w := perform_all [NewExperiment "interrupted" None "A" false] init_world in
  let a := bind_run [("raise_exceptions", PyBool false)] in
  (exists ex, heap w !! 0%nat = Some ex /\
              call example_env (function ex) (effective_test_mode a w)
              = Raise KeyboardInterrupt) /\
  clashes (experiment_record_kwargs a) = false /\
  exists w' r,
    run example_env 0%nat a w = (Raise KeyboardInterrupt, w') /\
    record_of_run w w' = Some r /\
    get_status r = Some STOPPED /\
    error_trace r = Some KeyboardInterrupt /\
    (forall e, PrintedTrace e ∉ printed w w').
Proof.
  intros w a. split; [eexists; split; reflexivity|]. split; [reflexivity|].
  eapply (interruption_stops_and_propagates example_env w 0%nat _ a); reflexivity.
Defined.

Lemma error_is_recorded_then_raised_or_returned_witness :
  let w := perform_all [NewExperiment "fails" None "A" false] init_world in
  let a := bind_run [("raise_exceptions", PyBool false)] in
  let e := Exception "ValueError" "boom" in
  (exists ex, heap w !! 0%nat = Some ex /\
              call example_env (function ex) (effective_test_mode a w) = Raise e) /\
  clashes (experiment_record_kwargs a) = false /\
  isinstance_Exception e = true /\
  exists w' r,
    run example_env 0%nat a w
    = (if truthy (raise_exceptions a) then Raise e else Ok (length (records w)), w') /\
    record_of_run w w' = Some r /\
    get_status r = Some ERROR /\
    error_trace r = Some e /\
    (PrintedTrace e ∈ printed w w' <-> truthy (raise_exceptions a) = false).
Proof.
  intros w a e. split; [eexists; split; reflexivity|]. split; [reflexivity|].
  split; [reflexivity|].
  eapply (error_is_recorded_then_raised_or_returned example_env w 0%nat _ a e);
    reflexivity.
Defined.

(** C3, as stated, fails on an exception that is not an instance of
    [Exception]: when the callable calls [sys.exit], no [except] clause
    catches the [SystemExit]; with [raise_exceptions] false the run
    still raises, the status stays [STARTED] and no trace is written. *)
Lemma system_exit_is_not_recorded_as_error :
  let w := perform_all [NewExperiment "exits" None "A" false] init_world in
  let a := bind_run [("raise_exceptions", PyBool false)] in
  isinstance_KeyboardInterrupt SystemExit = false /\
  call example_env (Function "exits") (effective_test_mode a w) = Raise SystemExit /\
  exists w' r,
    run example_env 0%nat a w = (Raise SystemExit, w') /\
    record_of_run w w' = Some r /\
    get_status r = Some STARTED /\
    error_trace r = None.
Proof.
  intros w a. split; [reflexivity|]. split; [reflexivity|].
  eexists _, _. split; [vm_compute; reflexivity|]. by split_and!.
Qed.

Lemma result_saved_on_normal_completion_only_witness :
  let w := perform_all [NewExperiment "succeeds" None "A" false] init_world in
  let a := bind_run [] in
  (exists ex, heap w !! 0%nat = Some ex) /\
  clashes (experiment_record_kwargs a) = false /\
  exists r,
    record_of_run w (run example_env 0%nat a w).2 = Some r /\
    saved_result r
    = match call example_env (Function "succeeds") (effective_test_mode a w) with
      | Ok results => Some results
      | Raise _ => None
      end.
Proof.
  intros w a. split; [by eexists|]. split; [reflexivity|].
  apply (result_saved_on_normal_completion_only example_env w 0%nat
           (mkExperiment "A" (Function "succeeds") None None None [] [] false) a);
    reflexivity.
Defined.

(** C4, as stated, fails on the handled error: the callable raises a
    [ValueError], [raise_exceptions] is false, the run returns the
    record, and no result is saved in it. *)
Lemma handled_error_saves_no_result :
  let w := perform_all [NewExperiment "fails" None "A" false] init_world in
  let a := bind_run [("raise_exceptions", PyBool false)] in
  exists w' r,
    run example_env 0%nat a w = (Ok 0%nat, w') /\
    record_of_run w w' = Some r /\
    get_status r = Some ERROR /\
    saved_result r = None.
Proof.
  intros w a. eexists _, _. split; [vm_compute; reflexivity|]. by split_and!.
Qed.

(** C1 fails on the code: the flag is [False], the node is run with
    [test_mode=True] and [raise_exceptions=False], the callable raises
    a [ValueError]; the run returns the record by line 139, before the
    [set_test_mode(old_test_mode)] of line 152, and the flag is [True]
    after the call. *)
Theorem handled_error_leaves_test_mode_set :
  let w := perform_all [NewExperiment "fails" None "A" false] init_world in
  let a := bind_run [("test_mode", PyBool true); ("raise_exceptions", PyBool false)] in
  exists w',
    run example_env 0%nat a w = (Ok 0%nat, w') /\
    _TEST_MODE w = PyBool false /\
    _TEST_MODE w' = PyBool true.
Proof.
  intros w a. eexists. split; [vm_compute; reflexivity|]. by split.
Qed.

(** X13.  For a run without clashing record keyword, whose callables do
    not themselves set the flag (those of the model cannot): the flag
    after the run is the flag before it when the callable returned and
    the display callable, if called, returned; in every other case (the
    callable raised, whether the error is handled or not, or the display
    callable raised) it is the [test_mode] that the run resolved, which
    is the [test_mode] argument, or the flag before the run when the
    argument is [None]. *)
Lemma test_mode_after_run env w self ex a :
  heap w !! self = Some ex ->
  clashes (experiment_record_kwargs a) = false ->
  _TEST_MODE (run env self a w).2
  = match call env (function ex) (effective_test_mode a w) with
    | Ok results =>
        match display_call ex (display_results a) with
        | Some d =>
            match display env d results with
            | Ok _ => _TEST_MODE w
            | Raise _ => effective_test_mode a w
            end
        | None => _TEST_MODE w
        end
    | Raise _ => effective_test_mode a w
    end /\
  effective_test_mode a w
  = match test_mode a with
    | PyNone => _TEST_MODE w
    | given => given
    end /\
  (test_mode a = PyNone -> _TEST_MODE (run env self a w).2 = _TEST_MODE w).
Proof.
  intros Hself Hclash.
  assert (_TEST_MODE (run env self a w).2
          = match call env (function ex) (effective_test_mode a w) with
            | Ok results =>
                match display_call ex (display_results a) with
                | Some d =>
                    match display env d results with
                    | Ok _ => _TEST_MODE w
                    | Raise _ => effective_test_mode a w
                    end
                | None => _TEST_MODE w
                end
            | Raise _ => effective_test_mode a w
            end) as Hflag.
  { rewrite (run_eq env w self ex a Hself Hclash). cbv zeta.
    destruct (call env (function ex) (effective_test_mode a w)) as [results|e].
    - rewrite run_after_eq by reflexivity. cbv zeta.
      destruct (display_call ex (display_results a)) as [d|];
        [destruct (display env d results)|]; reflexivity.
    - destruct (isinstance_KeyboardInterrupt e); [|destruct (isinstance_Exception e)];
        try reflexivity.
      by destruct (truthy (raise_exceptions a)). }
  split_and!; [done| |].
  - unfold effective_test_mode. by destruct (test_mode a).
  - intros Hnone. rewrite Hflag. unfold effective_test_mode. rewrite Hnone. cbn [is_None].
    destruct (call env (function ex) (_TEST_MODE w)) as [results|e]; [|done].
    destruct (display_call ex (display_results a)) as [d|]; [|done].
    by destruct (display env d results).
Qed.

(** ** [test] *)

Lemma contains_cons_ne {V} (d : dict V) k k' v :
  k' <> k -> contains ((k', v) :: d) k = contains d k.
Proof.
  intros Hne. unfold contains. simpl.
  by destruct (String.eqb_spec k' k).
Qed.

(** C10, as amended.  When [kwargs] has no [test_mode], [test] calls
    [run] with [test_mode] bound to [True], so that the flag is [True]
    while the callable runs; when this run returns, [test] returns
    [None] and not the record, whatever [keep_record] is; when it
    raises, [test] raises the same.  When [kwargs] holds [test_mode],
    whatever its value, [test] raises a [TypeError] and [run] is not
    entered: the store is unchanged.  In no case does [test] return a
    record. *)
Theorem test_runs_in_test_mode_and_returns_None env w self kwargs :
  (contains kwargs "test_mode" = false ->
   let a := bind_run (("test_mode", PyBool true) :: kwargs) in
   test_mode a = PyBool true /\
   effective_test_mode a w = PyBool true /\
   test env self kwargs w
   = match run env self a w with
     | (Ok _, w') => (Ok None, w')
     | (Raise e, w') => (Raise e, w')
     end /\
   (forall exp_rec, (test env self kwargs w).1 <> Ok (Some exp_rec))) /\
  (contains kwargs "test_mode" = true ->
   exists msg, test env self kwargs w = (Raise (TypeError msg), w)) /\
  (forall exp_rec, (test env self kwargs w).1 <> Ok (Some exp_rec)).
Proof.
  assert (contains kwargs "test_mode" = false ->
          test env self kwargs w
          = match run env self (bind_run (("test_mode", PyBool true) :: kwargs)) w with
            | (Ok _, w') => (Ok None, w')
            | (Raise e, w') => (Raise e, w')
            end) as Htest.
  { intros Hno. unfold test. rewrite Hno, bind_unfold.
    by destruct (run env self _ w) as [[?|?] ?]. }
  assert (contains kwargs "test_mode" = true ->
          exists msg, test env self kwargs w = (Raise (TypeError msg), w)) as Hclash.
  { intros Hyes. unfold test. rewrite Hyes, bind_unfold. by eexists. }
  assert (forall exp_rec, (test env self kwargs w).1 <> Ok (Some exp_rec)) as Hnone.
  { intros exp_rec. destruct (contains kwargs "test_mode") eqn:Hc.
    - destruct (Hclash eq_refl) as [msg ->]. done.
    - rewrite (Htest eq_refl). by destruct (run env self _ w) as [[?|?] ?]. }
  split_and!; [|done|done].
  intros Hno a. split_and!; [done|done|by apply Htest|done].
Qed.

Lemma test_runs_in_test_mode_and_returns_None_witness :
  let w := perform_all [NewExperiment "succeeds" None "A" false] init_world in
  let kwargs := [("keep_record", PyBool true)] in
  let a := bind_run (("test_mode", PyBool true) :: kwargs) in
  contains kwargs "test_mode" = false /\
  (run example_env 0%nat a w).1 = Ok 0%nat /\
  (test example_env 0%nat kwargs w).1 = Ok None /\
  test example_env 0%nat kwargs w
  = match run example_env 0%nat a w with
    | (Ok _, w') => (Ok None, w')
    | (Raise e, w') => (Raise e, w')
    end /\
  contains [("test_mode", PyNone)] "test_mode" = true /\
  exists msg,
    test example_env 0%nat [("test_mode", PyNone)] w = (Raise (TypeError msg), w).
Proof.
  intros w kwargs a. split; [reflexivity|]. split; [vm_compute; reflexivity|].
  split; [vm_compute; reflexivity|]. split.
  - destruct (proj1 (test_runs_in_test_mode_and_returns_None example_env w 0%nat kwargs)
                eq_refl) as (_ & _ & H & _).
    exact H.
  - split; [reflexivity|].
    exact (proj1 (proj2 (test_runs_in_test_mode_and_returns_None
                           example_env w 0%nat [("test_mode", PyNone)])) eq_refl).
Defined.

(** C10, as stated, fails on keyword arguments that hold [test_mode]:
    the call [self.run(test_mode=True, **kwargs)] then has two values
    for the parameter; it raises a [TypeError] and [run] is not entered:
    the store is unchanged. *)
Lemma test_rejects_test_mode_keyword :
  let w := perform_all [NewExperiment "succeeds" None "A" false] init_world in
  exists msg,
    test example_env 0%nat [("test_mode", PyBool false)] w = (Raise (TypeError msg), w).
Proof. intros w. eexists. reflexivity. Qed.

(** ** [capture_created_experiments] *)

(** C9 fails on the code: the library holds [A]; in the scope an
    experiment named [A] is defined again, which replaces the entry of
    the library in place, so the library is as long as at the entry and
    the list yielded by the scope is empty, although the new node was
    registered. *)
Theorem capture_misses_redefined_experiment :
  let w := perform_all [NewExperiment "f" None "A" false] init_world in
  let body := [NewExperiment "g" None "A" false] in
  registered body w = [1%nat] /\
  GLOBAL_EXPERIMENT_LIBRARY (perform_all body w) = [("A", 1%nat)] /\
  (capture_created_experiments (block body) w).1 = Ok [].
Proof. intros w body. by split_and!. Qed.

(* ================================================================== *)
(** * Further properties *)

(** ** Assignment and lookup in dictionaries *)

Lemma dict_get_setitem_eq {V} (d : dict V) k v : dict_get (setitem d k v) k = Some v.
Proof.
  induction d as [|[k0 v0] d IH]; simpl.
  - by rewrite String.eqb_refl.
  - destruct (String.eqb_spec k0 k) as [->|Hne]; simpl.
    + by rewrite String.eqb_refl.
    + by destruct (String.eqb_spec k0 k).
Qed.

Lemma dict_get_setitem_ne {V} (d : dict V) k k' v :
  k <> k' -> dict_get (setitem d k v) k' = dict_get d k'.
Proof.
  intros Hne. induction d as [|[k0 v0] d IH]; simpl.
  - by destruct (String.eqb_spec k k').
  - destruct (String.eqb_spec k0 k) as [->|Hne0]; simpl.
    + by destruct (String.eqb_spec k k').
    + by rewrite IH.
Qed.

Lemma setitem_present_keys {V} (d : dict V) k v :
  k ∈ keys d -> keys (setitem d k v) = keys d.
Proof.
  unfold keys. induction d as [|[k0 v0] d IH]; simpl.
  - by intros ?%elem_of_nil.
  - destruct (String.eqb_spec k0 k) as [->|Hne]; simpl; [done|].
    intros [?|Hin]%elem_of_cons; [congruence|]. f_equal. by apply IH.
Qed.

Lemma get_variant_eq self args kwargs w :
  get_variant self args kwargs w
  = match args with
    | [] =>
        match _kwargs_to_experiment_name kwargs with
        | Ok n =>
            match heap w !! self with
            | Some parent =>
                match dict_get (variants parent) n with
                | Some v => (Ok v, w)
                | None => (Raise (AssertionError ("No variant '" +:+ n +:+ "' exists.")), w)
                end
            | None => (Raise ReferenceError, w)
            end
        | Raise e => (Raise e, w)
        end
    | [n] =>
        if bool_decide (length kwargs = 0%nat) then
          match heap w !! self with
          | Some parent =>
              match dict_get (variants parent) n with
              | Some v => (Ok v, w)
              | None => (Raise (AssertionError ("No variant '" +:+ n +:+ "' exists.")), w)
              end
          | None => (Raise ReferenceError, w)
          end
        else (Raise (AssertionError
                "If you provide a variant name, there is no need to specify the keyword arguments."), w)
    | _ => (Raise (AssertionError
              "You can only provide 1 unnamed argument to get_variant: the variant name."), w)
    end.
Proof.
  unfold get_variant. rewrite bind_unfold.
  destruct args as [|n [|m args]]; [| |done].
  - unfold lift. destruct (_kwargs_to_experiment_name kwargs) as [n|e]; [|done].
    rewrite bind_unfold. unfold deref. destruct (heap w !! self) as [parent|]; [|done].
    by destruct (dict_get (variants parent) n).
  - rewrite bind_unfold. unfold assert.
    destruct (bool_decide (length kwargs = 0%nat)); [|done].
    cbv beta iota. unfold mret at 1, M_ret at 1. cbv beta iota.
    unfold mret at 1, M_ret at 1. cbv beta iota.
    rewrite bind_unfold. unfold deref. destruct (heap w !! self) as [parent|]; [|done].
    by destruct (dict_get (variants parent) n).
Qed.

(** X1.  A variant that was created is the one that [get_variant]
    returns: with the keyword arguments when it was named after them,
    with its name alone when it was named by a positional argument;
    with the name and keyword arguments together [get_variant] raises
    an assertion. *)
Theorem get_variant_after_creation self args kwargs is_root w ex w' :
  _create_experiment_variant self args kwargs is_root w = (Ok ex, w') ->
  (args = [] -> get_variant self [] kwargs w' = (Ok ex, w')) /\
  (forall n, args = [n] ->
     get_variant self [n] [] w' = (Ok ex, w') /\
     (kwargs <> [] -> exists msg,
        get_variant self [n] kwargs w' = (Raise (AssertionError msg), w'))).
Proof.
  intros Hcreate.
  destruct (create_variant_cases self args kwargs is_root w)
    as [[e He]|(parent & n & Hself & Hfresh & Hname & He)];
    rewrite He in Hcreate; [done|].
  injection Hcreate as <- <-.
  pose proof (created_parent w self parent Hself n kwargs is_root) as Hparent.
  assert (dict_get (variants (with_variant n (length (heap w)) parent)) n
          = Some (length (heap w))) as Hget by apply dict_get_setitem_eq.
  split.
  - intros ->. rewrite get_variant_eq. simpl in Hname. by rewrite Hname, Hparent, Hget.
  - intros m ->. simpl in Hname. injection Hname as ->. split.
    + rewrite get_variant_eq, bool_decide_eq_true_2 by done. by rewrite Hparent, Hget.
    + intros Hkw. rewrite get_variant_eq. eexists.
      rewrite bool_decide_eq_false_2; [done|]. by destruct kwargs.
Qed.

(** ** The library *)

Lemma load_experiment_eq id w :
  load_experiment id w
  = match dict_get (GLOBAL_EXPERIMENT_LIBRARY w) id with
    | Some ex => (Ok ex, w)
    | None => (Raise (ExperimentNotFoundError id), w)
    end.
Proof.
  unfold load_experiment, getitem.
  by destruct (dict_get (GLOBAL_EXPERIMENT_LIBRARY w) id).
Qed.

(** X2.  Defining an experiment that is not a root registers it under
    its name, in place of what the name denoted before: the lookup of
    the name returns the new node, the lookup of any other name is what
    it was, and the library keeps its order, the name staying where it
    was or else going to the end. *)
Theorem definition_registers_or_replaces f d c o n w :
  let w' := (Experiment_init f d c o n false w).2 in
  load_experiment n w' = (Ok (length (heap w)), w') /\
  (forall id, id <> n -> (load_experiment id w').1 = (load_experiment id w).1) /\
  (n ∈ keys (GLOBAL_EXPERIMENT_LIBRARY w) ->
     keys (GLOBAL_EXPERIMENT_LIBRARY w') = keys (GLOBAL_EXPERIMENT_LIBRARY w)) /\
  (n ∉ keys (GLOBAL_EXPERIMENT_LIBRARY w) ->
     GLOBAL_EXPERIMENT_LIBRARY w'
     = GLOBAL_EXPERIMENT_LIBRARY w ++ [(n, length (heap w))]) /\
  GLOBAL_EXPERIMENT_LIBRARY (Experiment_init f d c o n true w).2
  = GLOBAL_EXPERIMENT_LIBRARY w.
Proof.
  intros w'. subst w'. rewrite !Experiment_init_eq. cbn [snd]. split_and!.
  - rewrite load_experiment_eq. cbn [GLOBAL_EXPERIMENT_LIBRARY].
    by rewrite dict_get_setitem_eq.
  - intros id Hne. rewrite !load_experiment_eq. cbn [GLOBAL_EXPERIMENT_LIBRARY].
    rewrite dict_get_setitem_ne by done.
    by destruct (dict_get (GLOBAL_EXPERIMENT_LIBRARY w) id).
  - intros Hin. cbn [GLOBAL_EXPERIMENT_LIBRARY]. by apply setitem_present_keys.
  - intros Hnin. cbn [GLOBAL_EXPERIMENT_LIBRARY]. by apply setitem_fresh.
  - done.
Qed.

(** X3.  A variant creation that succeeds allocates the node named
    after the parent and the resolved name, puts it last in the variants
    of the parent, and registers it under its full name unless it is a
    root, in which case the library is untouched. *)
Theorem variant_creation_effect self args kwargs is_root w ex w' :
  _create_experiment_variant self args kwargs is_root w = (Ok ex, w') ->
  exists parent n,
    heap w !! self = Some parent /\
    resolve_name args kwargs = Ok n /\
    ex = length (heap w) /\
    heap w' !! ex = Some (variant_node parent n kwargs is_root) /\
    variants <$> heap w' !! self = Some (variants parent ++ [(n, ex)]) /\
    (if is_root
     then GLOBAL_EXPERIMENT_LIBRARY w' = GLOBAL_EXPERIMENT_LIBRARY w
     else load_experiment (name parent +:+ "." +:+ n) w' = (Ok ex, w') /\
          is_experiment_loadable (name parent +:+ "." +:+ n) w' = (Ok true, w')).
Proof.
  intros Hcreate.
  destruct (create_variant_cases self args kwargs is_root w)
    as [[e He]|(parent & n & Hself & Hfresh & Hname & He)];
    rewrite He in Hcreate; [done|].
  injection Hcreate as <- <-. exists parent, n. split_and!; try done.
  - by apply created_node.
  - rewrite (created_parent w self parent Hself n kwargs is_root).
    cbn [fmap option_fmap option_map]. f_equal. by apply created_variants.
  - destruct is_root; [done|].
    assert (dict_get (GLOBAL_EXPERIMENT_LIBRARY (created self parent n kwargs false w))
              (name parent +:+ "." +:+ n) = Some (length (heap w))) as Hget
      by apply dict_get_setitem_eq.
    split.
    + by rewrite load_experiment_eq, Hget.
    + unfold is_experiment_loadable, gets, contains. rewrite Hget.
      by rewrite bool_decide_eq_true_2 by eauto.
Qed.

(** ** Names along the tree and in the library *)

Lemma setitem_elem {V} (d : dict V) k v kv :
  kv ∈ setitem d k v -> kv = (k, v) \/ kv ∈ d.
Proof.
  induction d as [|[k0 v0] d IH]; simpl.
  - intros ?%list_elem_of_singleton. by left.
  - destruct (String.eqb_spec k0 k) as [->|Hne].
    + intros [->|H]%elem_of_cons; [by left | right; by right].
    + intros [->|H]%elem_of_cons; [right; left|].
      destruct (IH H) as [->|?]; [by left | right; by right].
Qed.

Lemma library_entry_valid w k r :
  wf_world w -> (k, r) ∈ GLOBAL_EXPERIMENT_LIBRARY w ->
  exists ex, heap w !! r = Some ex /\ is_root ex = false.
Proof.
  intros [_ Hlib] Hin. unfold wf_library in Hlib. rewrite Forall_forall in Hlib.
  apply Hlib. unfold values. apply list_elem_of_fmap. by exists (k, r).
Qed.

Lemma keeps_nodes_name_of w w' r :
  keeps_nodes w w' -> is_Some (heap w !! r) -> name_of w' r = name_of w r.
Proof.
  intros Hk [ex Hr]. destruct (Hk r ex Hr) as (ex' & Hr' & Hn & _).
  unfold name_of. by rewrite Hr, Hr'.
Qed.

Lemma init_keeps_nodes f d c o n r w :
  keeps_nodes w (Experiment_init f d c o n r w).2.
Proof.
  rewrite Experiment_init_eq. intros i ex Hi. exists ex. cbn [snd heap].
  split; [|done]. rewrite lookup_app_l; [done|]. by eapply lookup_lt_Some.
Qed.

Lemma created_keeps_nodes w self parent n kwargs is_root :
  heap w !! self = Some parent ->
  keeps_nodes w (created self parent n kwargs is_root w).
Proof.
  intros Hself i ex Hi. destruct (decide (i = self)) as [->|Hne].
  - rewrite (created_parent w self parent Hself n kwargs is_root).
    assert (ex = parent) as -> by congruence. by eexists.
  - exists ex. split; [|done]. cbn [created heap].
    rewrite list_lookup_alter_ne, lookup_app_l; [done| |done].
    by eapply lookup_lt_Some.
Qed.

(** A link of the store [w] that holds in it still holds in [w']. *)
Lemma link_kept w w' p ex ex' n c :
  wf_world w -> keeps_nodes w w' ->
  wf_links w ->
  heap w !! p = Some ex -> (n, c) ∈ variants ex ->
  heap w' !! p = Some ex' ->
  exists child, heap w' !! c = Some child /\
    name child = name ex' +:+ "." +:+ n /\
    root_function_name (function child) = root_function_name (function ex') /\
    _display_function child = _display_function ex' /\
    _one_liner_results child = _display_function ex' /\
    _comparison_function child = _display_function ex'.
Proof.
  intros Hwf Hk (Hlinks & _) Hp Hin Hp'.
  destruct (Hlinks p ex n c Hp Hin) as (child & Hc & H1 & H2 & H3 & H4 & H5).
  destruct (Hk c child Hc) as (child' & Hc' & Hn & Hf & Hd & Ho & Hcmp).
  destruct (Hk p ex Hp) as (ex2 & Hp2 & Hn2 & Hf2 & Hd2 & _).
  assert (ex2 = ex') as -> by congruence.
  exists child'. split; [done|]. rewrite Hn, Hf, Hd, Ho, Hcmp, Hn2, Hf2, Hd2. done.
Qed.

Lemma registered_links w w' n r :
  wf_world w -> wf_links w -> keeps_nodes w w' ->
  name_of w' r = n ->
  GLOBAL_EXPERIMENT_LIBRARY w' = setitem (GLOBAL_EXPERIMENT_LIBRARY w) n r ->
  (forall k r', (k, r') ∈ GLOBAL_EXPERIMENT_LIBRARY w' -> name_of w' r' = k) /\
  NoDup (keys (GLOBAL_EXPERIMENT_LIBRARY w')).
Proof.
  intros Hwf (_ & _ & Hlib & Hnd) Hk Hname Heq. rewrite Heq. split.
  - intros k r' [[= -> ->]|Hin]%setitem_elem; [done|].
    rewrite (keeps_nodes_name_of w w') by
      (try done; destruct (library_entry_valid w k r' Hwf Hin) as (? & -> & _); eauto).
    by apply Hlib.
  - by apply setitem_keys_NoDup.
Qed.

Lemma unregistered_links w w' :
  wf_world w -> wf_links w -> keeps_nodes w w' ->
  GLOBAL_EXPERIMENT_LIBRARY w' = GLOBAL_EXPERIMENT_LIBRARY w ->
  (forall k r', (k, r') ∈ GLOBAL_EXPERIMENT_LIBRARY w' -> name_of w' r' = k) /\
  NoDup (keys (GLOBAL_EXPERIMENT_LIBRARY w')).
Proof.
  intros Hwf (_ & _ & Hlib & Hnd) Hk Heq. rewrite Heq. split; [|done].
  intros k r' Hin.
  rewrite (keeps_nodes_name_of w w') by
    (try done; destruct (library_entry_valid w k r' Hwf Hin) as (? & -> & _); eauto).
  by apply Hlib.
Qed.

Lemma init_links f d c o n r w :
  wf_world w -> wf_links w -> wf_links (Experiment_init f d c o n r w).2.
Proof.
  intros Hwf Hl. pose proof (init_keeps_nodes f d c o n r w) as Hk.
  assert (forall p ex, heap (Experiment_init f d c o n r w).2 !! p = Some ex ->
            heap w !! p = Some ex \/ variants ex = []) as Hcases.
  { rewrite Experiment_init_eq. cbn [snd heap]. intros p ex Hp.
    destruct (decide (p < length (heap w))%nat) as [Hlt|Hge].
    - left. by rewrite lookup_app_l in Hp.
    - right. assert (p = length (heap w)) as ->.
      { apply lookup_lt_Some in Hp. rewrite length_app in Hp. simpl in Hp. lia. }
      rewrite list_lookup_middle in Hp by done. by injection Hp as <-. }
  assert (wf_links (Experiment_init f d c o n r w).2
          <-> (forall k r', (k, r') ∈ GLOBAL_EXPERIMENT_LIBRARY (Experiment_init f d c o n r w).2 ->
                 name_of (Experiment_init f d c o n r w).2 r' = k) /\
              NoDup (keys (GLOBAL_EXPERIMENT_LIBRARY (Experiment_init f d c o n r w).2)))
    as ->.
  { split; [by intros (_ & _ & ? & ?)|]. intros [H3 H4]. split_and!; [| |done|done].
    - intros p ex k cc Hp Hin. destruct (Hcases p ex Hp) as [Hold|Hnil].
      + by eapply (link_kept w).
      + rewrite Hnil in Hin. by apply elem_of_nil in Hin.
    - intros p ex Hp. destruct (Hcases p ex Hp) as [Hold|Hnil].
      + by eapply (proj1 (proj2 Hl)).
      + rewrite Hnil. apply NoDup_nil_2. }
  destruct r.
  - apply (unregistered_links w); [done..|]. by rewrite Experiment_init_eq.
  - apply (registered_links w _ n (length (heap w))); [done..| |].
    + rewrite Experiment_init_eq. unfold name_of. cbn [snd heap].
      by rewrite list_lookup_middle.
    + by rewrite Experiment_init_eq.
Qed.

Lemma created_lookup_cases w self parent n kwargs is_root p ex :
  heap w !! self = Some parent ->
  heap (created self parent n kwargs is_root w) !! p = Some ex ->
  (p = self /\ ex = with_variant n (length (heap w)) parent) \/
  (p <> self /\ heap w !! p = Some ex) \/
  (p = length (heap w) /\ ex = variant_node parent n kwargs is_root).
Proof.
  intros Hself Hp. destruct (decide (p = self)) as [->|Hne].
  - left. rewrite (created_parent w self parent Hself n kwargs is_root) in Hp.
    by injection Hp as <-.
  - right. cbn [created heap] in Hp. rewrite list_lookup_alter_ne in Hp by done.
    destruct (decide (p < length (heap w))%nat) as [Hlt|Hge].
    + left. by rewrite lookup_app_l in Hp.
    + right. assert (p = length (heap w)) as ->.
      { apply lookup_lt_Some in Hp. rewrite length_app in Hp. simpl in Hp. lia. }
      rewrite list_lookup_middle in Hp by done. by injection Hp as <-.
Qed.

Lemma created_links w self parent n kwargs is_root :
  wf_world w -> wf_links w ->
  heap w !! self = Some parent -> contains (variants parent) n = false ->
  wf_links (created self parent n kwargs is_root w).
Proof.
  intros Hwf Hl Hself Hfresh.
  pose proof (created_keeps_nodes w self parent n kwargs is_root Hself) as Hk.
  assert ((forall k r', (k, r') ∈ GLOBAL_EXPERIMENT_LIBRARY (created self parent n kwargs is_root w) ->
             name_of (created self parent n kwargs is_root w) r' = k) /\
          NoDup (keys (GLOBAL_EXPERIMENT_LIBRARY (created self parent n kwargs is_root w))))
    as [H3 H4].
  { destruct is_root.
    - by apply (unregistered_links w).
    - apply (registered_links w _ (name parent +:+ "." +:+ n) (length (heap w)));
        [done..| |done].
      unfold name_of. by rewrite (created_node w self parent Hself n kwargs false). }
  split_and!; [| |done|done].
  - intros p ex k c Hp Hin.
    destruct (created_lookup_cases w self parent n kwargs is_root p ex Hself Hp)
      as [[-> ->]|[[Hne Hold]|[-> ->]]].
    + rewrite (created_variants w parent n Hfresh) in Hin.
      apply elem_of_app in Hin as [Hin|Hin].
      * by eapply (link_kept w _ self parent).
      * apply list_elem_of_singleton in Hin. injection Hin as -> ->.
        exists (variant_node parent n kwargs is_root).
        split; [by apply created_node | done].
    + by eapply (link_kept w _ p ex).
    + by apply elem_of_nil in Hin.
  - intros p ex Hp.
    destruct (created_lookup_cases w self parent n kwargs is_root p ex Hself Hp)
      as [[-> ->]|[[Hne Hold]|[-> ->]]].
    + cbn [with_variant variants]. apply setitem_keys_NoDup.
      by eapply (proj1 (proj2 Hl)).
    + by eapply (proj1 (proj2 Hl)).
    + apply NoDup_nil_2.
Qed.

Lemma perform_links o w :
  wf_world w -> wf_links w -> wf_links (perform o w).2.
Proof.
  intros Hwf Hl. destruct o as [f d n r|self args kwargs|self args kwargs|]; simpl.
  - unfold mbind, M_bind.
    pose proof (init_links (Function f) d None None n r w Hwf Hl) as H.
    rewrite Experiment_init_eq in *. done.
  - unfold mbind, M_bind, add_variant.
    destruct (create_variant_cases self args kwargs false w)
      as [[e ->]|(parent & n & Hself & Hfresh & _ & ->)]; simpl; [done|].
    by apply created_links.
  - unfold mbind, M_bind, add_root_variant.
    destruct (create_variant_cases self args kwargs true w)
      as [[e ->]|(parent & n & Hself & Hfresh & _ & ->)]; simpl; [done|].
    by apply created_links.
  - destruct Hl as (H1 & H2 & _ & _). split_and!; [done|done| |apply NoDup_nil_2].
    intros k r Hin. by apply elem_of_nil in Hin.
Qed.

Lemma perform_all_links ops w :
  wf_world w -> wf_links w -> wf_links (perform_all ops w).
Proof.
  revert w. induction ops as [|o ops IH]; intros w Hwf Hl; [done|]. simpl.
  apply IH; [by apply perform_step | by apply perform_links].
Qed.

Lemma built_links ops : wf_links (perform_all ops init_world).
Proof.
  apply perform_all_links; [apply init_world_wf|].
  split_and!; [by intros p ex n c ?|by intros p ex ?|by intros k r ?%elem_of_nil|].
  apply NoDup_nil_2.
Qed.

Lemma built_wf ops : wf_world (perform_all ops init_world).
Proof. apply perform_all_steps, init_world_wf. Qed.

(** X4.  In a store built by any definitions, variant creations and
    clearings of the library, every variant [c] under the key [n] of a
    node is named [parent.name + '.' + n], has the root function of its
    parent, and has the display callable of its parent as its display,
    one-liner and comparison callables; and the keys of the variant map
    are distinct. *)
Theorem variants_named_after_parent ops p ex n c :
  heap (perform_all ops init_world) !! p = Some ex ->
  (n, c) ∈ variants ex ->
  NoDup (keys (variants ex)) /\
  exists child,
    heap (perform_all ops init_world) !! c = Some child /\
    name child = name ex +:+ "." +:+ n /\
    root_function_name (function child) = root_function_name (function ex) /\
    display_function child = display_function ex /\
    one_liner_function child = display_function ex /\
    comparison_function child = display_function ex /\
    _one_liner_results child = _display_function ex /\
    _comparison_function child = _display_function ex.
Proof.
  intros Hp Hin. destruct (built_links ops) as (Hlinks & Hnd & _). split; [by eapply Hnd|].
  destruct (Hlinks p ex n c Hp Hin) as (child & Hc & H1 & H2 & H3 & H4 & H5).
  exists child. unfold display_function, one_liner_function, comparison_function.
  by split_and!.
Qed.

(** X5.  In such a store, the lookup of a name succeeds exactly when the
    name is registered, and then returns a node that is not a root and
    bears this name; [get_experiment_info] then returns
    ['Experiment ' + name], and raises [ExperimentNotFoundError] when
    the lookup fails.  Neither changes the store. *)
Theorem lookup_returns_named_node ops id :
  let w := perform_all ops init_world in
  match dict_get (GLOBAL_EXPERIMENT_LIBRARY w) id with
  | Some ex =>
      load_experiment id w = (Ok ex, w) /\
      is_experiment_loadable id w = (Ok true, w) /\
      name <$> heap w !! ex = Some id /\
      is_root <$> heap w !! ex = Some false /\
      get_experiment_info id w = (Ok ("Experiment " +:+ id), w)
  | None =>
      load_experiment id w = (Raise (ExperimentNotFoundError id), w) /\
      is_experiment_loadable id w = (Ok false, w) /\
      get_experiment_info id w = (Raise (ExperimentNotFoundError id), w)
  end.
Proof.
  intros w.
  pose proof (built_wf ops) as Hwf. fold w in Hwf.
  pose proof (built_links ops) as (_ & _ & Hlib & _). fold w in Hlib.
  unfold get_experiment_info, is_experiment_loadable, gets, contains.
  rewrite bind_unfold, load_experiment_eq.
  destruct (dict_get (GLOBAL_EXPERIMENT_LIBRARY w) id) as [ex|] eqn:Hget.
  - apply dict_get_Some in Hget.
    destruct (library_entry_valid w id ex Hwf Hget) as (node & Hnode & Hroot).
    pose proof (Hlib id ex Hget) as Hname. unfold name_of in Hname.
    rewrite Hnode in Hname. simpl in Hname.
    split_and!; [done|by rewrite bool_decide_eq_true_2 by eauto|by rewrite Hnode, <-Hname
                 |by rewrite Hnode, <-Hroot|].
    rewrite bind_unfold. unfold deref. rewrite Hnode. unfold Experiment_str.
    by rewrite Hname.
  - split_and!; [done| |done]. rewrite bool_decide_eq_false_2; [done|]. by intros [? ?].
Qed.

(** ** The traversal, again *)

Lemma filter_concat {A} (P : A -> Prop) `{!forall x, Decision (P x)} (ls : list (list A)) :
  filter P (concat ls) = concat (filter P <$> ls).
Proof.
  induction ls as [|l ls IH]; simpl; [done|]. by rewrite filter_app, IH.
Qed.

Lemma get_all_variants_without_roots h :
  forall fuel self include_self l,
    get_all_variants_fuel fuel h self true include_self = Some l ->
    get_all_variants_fuel fuel h self false include_self
    = Some (filter (fun r => is_root_at h r = false) l).
Proof.
  induction fuel as [|fuel IH]; intros self is_ l; [done|].
  rewrite !get_all_variants_unfold.
  destruct (h !! self) as [ex|] eqn:Hex; simpl; [|done].
  destruct (mapM _ _) as [rest|] eqn:Hrest; simpl; [|done].
  intros [= <-]. apply mapM_Some in Hrest.
  assert (mapM (fun nv => get_all_variants_fuel fuel h nv.2 false true) (variants ex)
          = Some (filter (fun r => is_root_at h r = false) <$> rest)) as ->.
  { apply mapM_Some, Forall2_fmap_r. eapply Forall2_impl; [exact Hrest|].
    intros nv lc Hlc. simpl. by apply IH. }
  simpl. f_equal. rewrite filter_app, filter_concat. f_equal.
  rewrite orb_true_r, orb_false_r, andb_true_r.
  destruct is_; simpl; [|done].
  rewrite filter_cons, filter_nil. unfold is_root_at. rewrite Hex. simpl.
  by destruct (is_root ex).
Qed.

(** X6.  On a node of a built store, the traversal without roots is the
    traversal with roots from which the roots are removed: leaving out
    a root leaves out this node alone, not the variants below it. *)
Theorem traversal_without_roots ops self include_self :
  (self < length (heap (perform_all ops init_world)))%nat ->
  (let w := perform_all ops init_world in
   exists l,
     get_all_variants w self true include_self = Some l /\
     get_all_variants w self false include_self
     = Some (filter (fun r => is_root_at (heap w) r = false) l)).
Proof.
  intros Hself w.
  destruct (get_all_variants_total w self true include_self) as [l Hl];
    [apply (built_wf ops) | done |].
  exists l. split; [done|]. by apply get_all_variants_without_roots.
Qed.

Lemma get_all_variants_sound h include_roots :
  forall fuel self include_self l r,
    get_all_variants_fuel fuel h self include_roots include_self = Some l ->
    r ∈ l ->
    (r = self /\ include_self = true) \/ descendant h self r.
Proof.
  induction fuel as [|fuel IH]; intros self is_ l r; [done|].
  rewrite get_all_variants_unfold.
  destruct (h !! self) as [ex|] eqn:Hex; simpl; [|done].
  destruct (mapM _ _) as [rest|] eqn:Hrest; simpl; [|done].
  intros [= <-] [Hin|Hin]%elem_of_app.
  - left. destruct is_; simpl in Hin; [|by apply elem_of_nil in Hin].
    destruct (negb (is_root ex) || include_roots); [|by apply elem_of_nil in Hin].
    by apply list_elem_of_singleton in Hin.
  - right. apply mapM_Some in Hrest.
    apply elem_of_concat in Hin as (lc & Hlc & Hin).
    apply list_elem_of_lookup_1 in Hlc as [i Hi].
    destruct (Forall2_lookup_r _ _ _ _ _ Hrest Hi) as ([n c] & Hnv & Hc).
    apply list_elem_of_lookup_2 in Hnv. simpl in Hc.
    destruct (IH _ _ _ _ Hc Hin) as [[-> _]|Hd].
    + by eapply descendant_child.
    + by eapply descendant_step.
Qed.

Lemma get_all_variants_complete h include_roots p d :
  descendant h p d ->
  forall fuel include_self l exd,
    get_all_variants_fuel fuel h p include_roots include_self = Some l ->
    h !! d = Some exd -> is_root exd = false \/ include_roots = true ->
    d ∈ l.
Proof.
  induction 1 as [p ex n c Hp Hin|p ex n c d Hp Hin _ IH];
    intros fuel is_ l exd Hl Hd Hpass.
  - destruct fuel as [|fuel]; [done|].
    destruct (get_all_variants_child _ _ _ _ _ _ _ _ _ Hl Hp Hin) as (lc & Hlc & Hsub).
    apply Hsub. by eapply get_all_variants_self.
  - destruct fuel as [|fuel]; [done|].
    destruct (get_all_variants_child _ _ _ _ _ _ _ _ _ Hl Hp Hin) as (lc & Hlc & Hsub).
    apply Hsub. by eapply IH.
Qed.

Lemma descendant_valid h p d : wf_heap h -> descendant h p d -> (p < d < length h)%nat.
Proof.
  intros Hwf. induction 1 as [p ex n c Hp Hin|p ex n c d Hp Hin _ IH].
  - pose proof (Hwf p ex Hp) as H. rewrite Forall_forall in H. apply (H _ Hin).
  - pose proof (Hwf p ex Hp) as H. rewrite Forall_forall in H.
    pose proof (H _ Hin). simpl in *. lia.
Qed.

(** X7.  On a node [self] of a built store the traversal finishes, and
    its nodes are [self], when [include_self] is true, and the nodes
    below [self] in the tree of variants, each one provided that it is
    not a root or that [include_roots] is true; when [self] is in, it
    comes first. *)
Theorem traversal_is_subtree ops self include_roots include_self :
  (self < length (heap (perform_all ops init_world)))%nat ->
  (let w := perform_all ops init_world in
   exists l,
     get_all_variants w self include_roots include_self = Some l /\
     (forall r,
        r ∈ l <->
        ((r = self /\ include_self = true) \/ descendant (heap w) self r) /\
        (is_root_at (heap w) r = false \/ include_roots = true)) /\
     (include_self = true ->
      is_root_at (heap w) self = false \/ include_roots = true ->
      head l = Some self)).
Proof.
  intros Hself w. pose proof (built_wf ops) as [Hwf _].
  subst w. set (w := perform_all ops init_world) in *.
  destruct (get_all_variants_total w self include_roots include_self) as [l Hl];
    [done..|].
  exists l. split; [done|]. split.
  - intros r. split.
    + intros Hin. split; [by eapply get_all_variants_sound|].
      apply get_all_variants_filter in Hl. rewrite Forall_forall in Hl.
      destruct (Hl r Hin) as (ex & Hr & Hpass). unfold is_root_at. by rewrite Hr.
    + intros [[[-> ->]|Hd] Hpass].
      * destruct (lookup_lt_is_Some_2 _ _ Hself) as [ex Hex].
        eapply get_all_variants_self; [exact Hl | exact Hex|].
        unfold is_root_at in Hpass. by rewrite Hex in Hpass.
      * pose proof (descendant_valid _ _ _ Hwf Hd) as [_ Hlt].
        destruct (lookup_lt_is_Some_2 _ _ Hlt) as [exd Hexd].
        eapply get_all_variants_complete; [exact Hd | exact Hl | exact Hexd|].
        unfold is_root_at in Hpass. by rewrite Hexd in Hpass.
  - intros -> Hpass. unfold get_all_variants in Hl.
    rewrite get_all_variants_unfold in Hl.
    destruct (heap w !! self) as [ex|] eqn:Hex; simpl in Hl; [|done].
    destruct (mapM _ _) as [rest|]; simpl in Hl; [|done]. injection Hl as <-.
    unfold is_root_at in Hpass. rewrite Hex in Hpass. simpl in Hpass.
    assert (negb (is_root ex) || include_roots = true) as ->
      by (destruct Hpass as [-> | ->]; [done | apply orb_true_r]).
    done.
Qed.

(** ** The records of a node *)

Lemma last_filter_Some {A} (P : A -> Prop) `{!forall x, Decision (P x)} (l : list A) r :
  last (filter P l) = Some r <->
  exists l1 l2, l = l1 ++ r :: l2 /\ P r /\ Forall (fun x => ~ P x) l2.
Proof.
  split.
  - induction l as [|x l IH] using rev_ind; [done|].
    rewrite filter_app, filter_cons, filter_nil.
    destruct (decide (P x)) as [HP|HP].
    + rewrite last_snoc. intros [= ->]. exists l, []. by split_and!.
    + rewrite app_nil_r. intros (l1 & l2 & -> & Hr & Hl2)%IH.
      exists l1, (l2 ++ [x]). rewrite <-app_assoc. split_and!; [done|done|].
      apply Forall_app. split; [done|]. by apply Forall_singleton.
  - intros (l1 & l2 & -> & Hr & Hl2).
    rewrite filter_app, filter_cons_True by done.
    assert (filter P l2 = []) as ->.
    { induction Hl2 as [|x l2 Hx _ IH]; [done|]. by rewrite filter_cons_False. }
    by rewrite last_snoc.
Qed.

(** X8.  The latest completed record of a node is the last record of
    its name, in the order of the store, whose status is [FINISHED]:
    [get_latest_record(only_completed=True)] returns [r] exactly when
    the records of the name are some records, [r], and records that are
    not finished; it raises, or returns [None] when [err_if_none] is
    false, exactly when no record of the name is finished. *)
Theorem latest_completed_record_is_last_finished env ex err_if_none :
  let all_records :=
    load_experiment_record env <$> experiment_id_to_record_ids env (name ex) in
  (forall r,
     get_latest_record env ex true err_if_none = Ok (Some r) <->
     exists l1 l2, all_records = l1 ++ r :: l2 /\
                   get_status r = Some FINISHED /\
                   Forall (fun x => get_status x <> Some FINISHED) l2) /\
  ((exists e, get_latest_record env ex true true = Raise e) <->
   Forall (fun x => get_status x <> Some FINISHED) all_records) /\
  (get_latest_record env ex true false = Ok None <->
   Forall (fun x => get_status x <> Some FINISHED) all_records).
Proof.
  intros all_records.
  assert (get_records env ex true
          = filter (fun record => get_status record = Some FINISHED) all_records)
    as Hrec by done.
  assert (filter (fun record => get_status record = Some FINISHED) all_records = []
          <-> Forall (fun x => get_status x <> Some FINISHED) all_records) as Hnone.
  { rewrite Forall_forall. split.
    - intros Hnil x Hx HP.
      assert (x ∈ filter (fun record => get_status record = Some FINISHED) all_records)
        as Hin by (by apply list_elem_of_filter).
      rewrite Hnil in Hin. by apply elem_of_nil in Hin.
    - intros Hall. destruct (filter _ all_records) as [|x l] eqn:E; [done|].
      assert (x ∈ filter (fun record => get_status record = Some FINISHED) all_records)
        as [HP Hx]%list_elem_of_filter by (rewrite E; left).
      by destruct (Hall x Hx). }
  unfold get_latest_record. rewrite Hrec.
  split_and!.
  - intros r.
    pose proof (last_filter_Some (fun record => get_status record = Some FINISHED)
                  all_records r) as Hlast.
    cbv beta in Hlast. rewrite <-Hlast. clear Hlast.
    destruct (filter _ all_records) as [|x l] eqn:E.
    + rewrite bool_decide_eq_true_2 by done. by destruct err_if_none.
    + rewrite bool_decide_eq_false_2 by done. split; [by intros [= ->] | by intros ->].
  - rewrite <-Hnone. destruct (filter _ all_records) as [|x l] eqn:E.
    + rewrite bool_decide_eq_true_2 by done. split; [done | by eexists].
    + rewrite bool_decide_eq_false_2 by done. split; [by intros [? ?] | done].
  - rewrite <-Hnone. destruct (filter _ all_records) as [|x l] eqn:E.
    + by rewrite bool_decide_eq_true_2 by done.
    + rewrite bool_decide_eq_false_2 by done. split; [|done].
      intros [= Hlast]. by apply last_None in Hlast.
Qed.

(** X9.  [has_record] is true exactly when some record of the name of
    the node passes the filters that are asked for: finished, when
    [completed] is true, and valid, when [valid] is true. *)
Theorem has_record_iff env is_valid ex completed valid :
  has_record env is_valid ex completed valid = true <->
  exists r,
    r ∈ load_experiment_record env <$> experiment_id_to_record_ids env (name ex) /\
    (completed = true -> get_status r = Some FINISHED) /\
    (valid = true -> is_valid r = true).
Proof.
  unfold has_record, get_records. rewrite bool_decide_eq_true.
  set (all_records := load_experiment_record env <$> _).
  assert (forall l : list ExperimentRecord, (0 < length l)%nat <-> exists r, r ∈ l) as Hne.
  { intros [|x l]; simpl; split; [lia | by intros [? ?%elem_of_nil]
                                  | intros _; exists x; left | lia]. }
  rewrite Hne. destruct completed, valid; split.
  all: try (intros (r & Hr); exists r).
  all: try (intros (r & Hr & Hc & Hv); exists r).
  all: repeat (rewrite !list_elem_of_filter in * ).
  all: intuition (try discriminate; auto).
Qed.

(** ** More on the run *)

Lemma noted_notes ex r : notes (noted ex r) = notes r ++ _notes ex.
Proof.
  unfold noted. revert r. induction (_notes ex) as [|n l IH]; intros r.
  - by rewrite app_nil_r.
  - cbn [foldl]. rewrite IH. cbn [with_note notes]. by rewrite <-app_assoc.
Qed.

Lemma noted_fields ex r :
  info (noted ex r) = info r /\ error_trace (noted ex r) = error_trace r /\
  record_name (noted ex r) = record_name r /\ use_temp_dir (noted ex r) = use_temp_dir r.
Proof.
  unfold noted. revert r. induction (_notes ex) as [|n l IH]; intros r; [done|].
  cbn [foldl]. destruct (IH (with_note n r)) as (-> & -> & -> & ->). done.
Qed.

Ltac run_cases env w self ex a Hself Hclash :=
  rewrite (run_eq env w self ex a Hself Hclash); cbv zeta;
  destruct (call env (function ex) (effective_test_mode a w)) as [results|e];
  [ rewrite run_after_eq by reflexivity; cbv zeta;
    destruct (display_call ex (display_results a)) as [d|];
    [destruct (display env d results) as [[]|e]|]
  | destruct (isinstance_KeyboardInterrupt e); [|destruct (isinstance_Exception e)] ];
  cbn [snd].

Ltac noted_away :=
  try match goal with
      | |- context [noted ?ex ?r] =>
          let H1 := fresh in let H2 := fresh in let H3 := fresh in let H4 := fresh in
          destruct (noted_fields ex r) as (H1 & H2 & H3 & H4);
          unfold get_status; rewrite ?H1, ?H2, ?H3, ?H4, ?noted_saved_result, ?noted_notes
      end.

(** X10.  When the callable returns and the display callable, if one is
    called, returns too, the run returns the new record: its status is
    [FINISHED], it holds the returned value and no error trace, its
    notes are the notes of the node, in order; the flag is what it was
    before the run; the console got the start line, the display if any,
    and the done line. *)
Theorem run_normal_completion env w self ex a results :
  heap w !! self = Some ex ->
  clashes (experiment_record_kwargs a) = false ->
  call env (function ex) (effective_test_mode a w) = Ok results ->
  (forall d, display_call ex (display_results a) = Some d ->
             display env d results = Ok tt) ->
  exists w' r,
    run env self a w = (Ok (length (records w)), w') /\
    record_of_run w w' = Some r /\
    get_status r = Some FINISHED /\
    saved_result r = Some results /\
    error_trace r = None /\
    notes r = _notes ex /\
    _TEST_MODE w' = _TEST_MODE w /\
    printed w w'
    = [LoggerInfo (start_line ex (effective_test_mode a w))]
      ++ match display_call ex (display_results a) with
         | Some d => [Displayed d results]
         | None => []
         end
      ++ [LoggerInfo (done_line ex (effective_test_mode a w))].
Proof.
  intros Hself Hclash Hcall Hdisplay. rewrite (run_eq env w self ex a Hself Hclash).
  cbv zeta. rewrite Hcall, run_after_eq by reflexivity. cbv zeta.
  destruct (display_call ex (display_results a)) as [d|];
    [rewrite (Hdisplay d eq_refl)|].
  all: eexists _, _; split; [reflexivity|].
  all: split; [by apply record_of_run_recording|].
  all: noted_away.
  all: split_and!; try done.
  all: unfold printed;
    cbn [console recording with_records with_test_mode with_console entered];
    rewrite <-!app_assoc; by rewrite drop_app_length.
Qed.

Lemma run_record_location_aux env w self ex a :
  heap w !! self = Some ex ->
  clashes (experiment_record_kwargs a) = false ->
  exists r,
    record_of_run w (run env self a w).2 = Some r /\
    use_temp_dir r = negb (truthy (effective_keep_record a w)).
Proof.
  intros Hself Hclash. run_cases env w self ex a Hself Hclash.
  all: try destruct (truthy (raise_exceptions a)).
  all: eexists; split; [by apply record_of_run_recording|]; noted_away; done.
Qed.

(** X11.  In a run of a node whose record keywords repeat none of the
    keywords that line 109 passes by name, the record of the run bears
    the name of the node and is at a temporary location exactly when the
    [keep_record] that the run resolves is false: the argument when it
    is not [None], else [keep_record_by_default] when that is not
    [None], else the negation of the resolved [test_mode]. *)
Theorem run_record_name_and_location env w self ex a :
  heap w !! self = Some ex ->
  clashes (experiment_record_kwargs a) = false ->
  exists r,
    record_of_run w (run env self a w).2 = Some r /\
    record_name r = name ex /\
    use_temp_dir r = negb (truthy (effective_keep_record a w)) /\
    effective_keep_record a w
    = match keep_record a, keep_record_by_default w with
      | PyNone, PyNone => PyBool (negb (truthy (effective_test_mode a w)))
      | PyNone, by_default => by_default
      | given, _ => given
      end.
Proof.
  intros Hself Hclash.
  assert (effective_keep_record a w
          = match keep_record a, keep_record_by_default w with
            | PyNone, PyNone => PyBool (negb (truthy (effective_test_mode a w)))
            | PyNone, by_default => by_default
            | given, _ => given
            end) as Hkeep.
  { unfold effective_keep_record.
    by destruct (keep_record a), (keep_record_by_default w). }
  run_cases env w self ex a Hself Hclash.
  all: try destruct (truthy (raise_exceptions a)).
  all: eexists; split; [by apply record_of_run_recording|]; noted_away; by split_and!.
Qed.

(** X12.  Whatever the callable does, the record of the run has the
    start metadata and the fields of the [finally] block (run time and
    figures); its status is [FINISHED] when the callable returned,
    [STOPPED] on an interruption, [ERROR] on an instance of
    [Exception], and is left [STARTED] on any other exception; an error
    trace is written exactly in the [STOPPED] and [ERROR] cases. *)
Theorem run_status_and_metadata env w self ex a :
  heap w !! self = Some ex ->
  clashes (experiment_record_kwargs a) = false ->
  exists r,
    record_of_run w (run env self a w).2 = Some r /\
    get_status r
    = Some match call env (function ex) (effective_test_mode a w) with
           | Ok _ => FINISHED
           | Raise e =>
               if isinstance_KeyboardInterrupt e then STOPPED
               else if isinstance_Exception e then ERROR else STARTED
           end /\
    error_trace r
    = match call env (function ex) (effective_test_mode a w) with
      | Ok _ => None
      | Raise e =>
          if isinstance_KeyboardInterrupt e || isinstance_Exception e
          then Some e else None
      end /\
    get_field (info r) NAME = Some (InfoStr (name ex)) /\
    get_field (info r) FUNCTION = Some (InfoStr (root_function_name (function ex))) /\
    get_field (info r) ARGS
    = Some (InfoArgs (infer_derived_arg_values env (function ex))) /\
    get_field (info r) USER = Some (InfoStr (getuser env)) /\
    get_field (info r) RUNTIME = Some (InfoNum (elapsed env)) /\
    get_field (info r) N_FIGS
    = Some (InfoNum (Z.of_nat (length (get_figure_locs env (length (records w)))))) /\
    get_field (info r) FIGS
    = Some (InfoList (get_figure_locs env (length (records w)))).
Proof.
  intros Hself Hclash. run_cases env w self ex a Hself Hclash.
  all: try destruct (truthy (raise_exceptions a)).
  all: eexists; split; [by apply record_of_run_recording|].
  all: noted_away.
  all: by split_and!.
Qed.

Lemma kwarg_cons_ne k v kwargs parameter by_default :
  k <> parameter ->
  kwarg ((k, v) :: kwargs) parameter by_default = kwarg kwargs parameter by_default.
Proof.
  intros Hne. unfold kwarg. simpl. by destruct (String.eqb_spec k parameter).
Qed.

(** X14.  Let [kwargs] hold neither [test_mode] nor a keyword that
    line 109 passes by name, and let [keep_record_by_default] be
    [None].  Then the record of the run that [test] makes is at a
    temporary location when [kwargs] has no [keep_record] or has
    [keep_record=None], and otherwise exactly when the [keep_record]
    given is false. *)
Theorem test_uses_temporary_record env w self ex kwargs :
  heap w !! self = Some ex ->
  contains kwargs "test_mode" = false ->
  clashes (experiment_record_kwargs (bind_run (("test_mode", PyBool true) :: kwargs)))
  = false ->
  keep_record_by_default w = PyNone ->
  exists r,
    record_of_run w (test env self kwargs w).2 = Some r /\
    use_temp_dir r
    = match dict_get kwargs "keep_record" with
      | None | Some PyNone => true
      | Some v => negb (truthy v)
      end.
Proof.
  intros Hself Hno Hclash Hdefault.
  assert ((test env self kwargs w).2
          = (run env self (bind_run (("test_mode", PyBool true) :: kwargs)) w).2) as ->.
  { unfold test. rewrite Hno, bind_unfold. by destruct (run env self _ w) as [[?|?] ?]. }
  destruct (run_record_location_aux env w self ex _ Hself Hclash) as (r & Hr & Htemp).
  exists r. split; [done|]. rewrite Htemp.
  unfold effective_keep_record, effective_test_mode. rewrite Hdefault.
  cbn [bind_run keep_record test_mode].
  assert (kwarg (("test_mode", PyBool true) :: kwargs) "test_mode" PyNone = PyBool true)
    as -> by reflexivity.
  assert (kwarg (("test_mode", PyBool true) :: kwargs) "keep_record" PyNone
          = default PyNone (dict_get kwargs "keep_record")) as ->
    by (by rewrite kwarg_cons_ne).
  destruct (dict_get kwargs "keep_record") as [[]|]; reflexivity.
Qed.

(** ** Capturing definitions *)

Lemma perform_registers o w :
  o <> ClearAllExperiments ->
  (forall ex w', perform o w = (Ok (Some ex), w') -> registers o = true ->
                 name_of w' ex ∉ keys (GLOBAL_EXPERIMENT_LIBRARY w)) ->
  values (GLOBAL_EXPERIMENT_LIBRARY (perform o w).2)
  = values (GLOBAL_EXPERIMENT_LIBRARY w)
    ++ match perform o w with
       | (Ok (Some ex), _) => if registers o then [ex] else []
       | _ => []
       end.
Proof.
  intros Hclear Hfresh.
  destruct o as [f d n r|self args kwargs|self args kwargs|]; [| | |done].
  - revert Hfresh. unfold perform. rewrite bind_unfold, Experiment_init_eq.
    cbv beta iota. unfold mret, M_ret. cbn [snd GLOBAL_EXPERIMENT_LIBRARY registers].
    intros Hfresh. destruct r; cbn [negb]; [by rewrite app_nil_r|].
    specialize (Hfresh _ _ eq_refl eq_refl). unfold name_of in Hfresh.
    cbn [heap] in Hfresh. rewrite list_lookup_middle in Hfresh by done.
    rewrite setitem_fresh by done. unfold values. by rewrite fmap_app.
  - revert Hfresh. unfold perform, add_variant. rewrite bind_unfold.
    destruct (create_variant_cases self args kwargs false w)
      as [[e ->]|(parent & n & Hself & Hnew & _ & ->)]; cbv beta iota.
    + intros _. by rewrite app_nil_r.
    + unfold mret, M_ret. cbn [snd registers]. intros Hfresh.
      specialize (Hfresh _ _ eq_refl eq_refl). unfold name_of in Hfresh.
      rewrite (created_node w self parent Hself n kwargs false) in Hfresh.
      cbn [created GLOBAL_EXPERIMENT_LIBRARY].
      rewrite setitem_fresh by done. unfold values. by rewrite fmap_app.
  - unfold perform, add_root_variant. rewrite bind_unfold.
    destruct (create_variant_cases self args kwargs true w)
      as [[e ->]|(parent & n & Hself & Hnew & _ & ->)]; cbv beta iota.
    + by rewrite app_nil_r.
    + unfold mret, M_ret. cbn [snd registers]. by rewrite app_nil_r.
Qed.

Lemma perform_all_registers ops w :
  fresh_block ops w ->
  values (GLOBAL_EXPERIMENT_LIBRARY (perform_all ops w))
  = values (GLOBAL_EXPERIMENT_LIBRARY w) ++ registered ops w.
Proof.
  revert w. induction ops as [|o ops IH]; intros w; [by rewrite app_nil_r|].
  intros (Hclear & Hfresh & Hrest). cbn [perform_all foldl registered].
  fold (perform_all ops (perform o w).2).
  rewrite (IH _ Hrest), (perform_registers o w Hclear Hfresh).
  destruct (perform o w) as [[[ex|]|e] w']; cbn [snd].
  - by rewrite <-app_assoc.
  - by rewrite app_nil_r.
  - by rewrite app_nil_r.
Qed.

(** X15.  When the block of a scope never clears the library and
    registers every node under a name that the library does not hold
    yet, the list that the scope yields is, at the exit, exactly the
    nodes registered in the block, in the order of their registration;
    for an empty block it is empty. *)
Theorem capture_collects_fresh_registrations ops w :
  fresh_block ops w ->
  capture_created_experiments (block ops) w
  = (Ok (registered ops w), perform_all ops w).
Proof.
  intros Hfresh.
  assert (capture_created_experiments (block ops) w
          = (Ok (drop (length (GLOBAL_EXPERIMENT_LIBRARY w))
                   (values (GLOBAL_EXPERIMENT_LIBRARY (perform_all ops w)))),
             perform_all ops w)) as -> by reflexivity.
  f_equal. f_equal.
  rewrite (perform_all_registers ops w Hfresh).
  replace (length (GLOBAL_EXPERIMENT_LIBRARY w))
    with (length (values (GLOBAL_EXPERIMENT_LIBRARY w)))
    by (unfold values; apply length_fmap).
  apply drop_app_length.
Qed.

(** ** All the records of the variants *)

Lemma OrderedDict_values_elem {V} (pairs : list (string * V)) v :
  v ∈ values (OrderedDict pairs) -> v ∈ values pairs.
Proof.
  induction pairs as [|kv pairs IH] using rev_ind; [done|].
  rewrite OrderedDict_snoc. intros [->|Hin]%setitem_values_elem.
  - unfold values. rewrite fmap_app. apply elem_of_app. right. left.
  - unfold values. rewrite fmap_app. apply elem_of_app. left. by apply IH.
Qed.

Lemma records_of_nodes env w only_completed (vs : list ref) (exs : list Experiment) :
  Forall2 (fun r ex => heap w !! r = Some ex) vs exs ->
  (fun ex => (name ex, get_records env ex only_completed)) <$> exs
  = (fun v => (name_of w v, records_of env w only_completed v)) <$> vs.
Proof.
  induction 1 as [|r ex vs exs Hr _ IH]; simpl; [done|]. f_equal; [|done].
  unfold name_of, records_of. by rewrite Hr.
Qed.

(** X16.  On a node of a built store, [get_variant_records] with
    [only_last] false returns, when [flat], a list of records that are
    all finished if [only_completed] is true; when the names of the
    nodes of the traversal are pairwise distinct, the dictionary has
    one entry per node, its name with all its records, in the order of
    the traversal, and the flat list is these lists of records one
    after the other. *)
Theorem all_variant_records env ops self only_completed :
  (self < length (heap (perform_all ops init_world)))%nat ->
  (let w := perform_all ops init_world in
   exists vs,
     get_all_variants w self false true = Some vs /\
     (exists l,
         get_variant_records env w self only_completed false true
         = Some (Ok (FlatAll l)) /\
         (only_completed = true ->
          Forall (fun r => get_status r = Some FINISHED) l) /\
         (NoDup (name_of w <$> vs) ->
          l = concat (records_of env w only_completed <$> vs))) /\
     (exists d,
         get_variant_records env w self only_completed false false
         = Some (Ok (DictAll d)) /\
         (NoDup (name_of w <$> vs) ->
          d = (fun v => (name_of w v, records_of env w only_completed v)) <$> vs))).
Proof.
  intros Hself w. pose proof (built_wf ops) as Hwf.
  subst w. set (w := perform_all ops init_world) in *.
  destruct (get_all_variants_total w self false true) as [vs Hvs]; [apply Hwf|done|].
  exists vs. split; [done|].
  assert (exists exs, mapM (fun ex => heap w !! ex) vs = Some exs) as [exs Hexs].
  { apply mapM_is_Some. apply get_all_variants_filter in Hvs.
    eapply Forall_impl; [exact Hvs|]. intros r (ex & Hr & _). by exists ex. }
  pose proof (proj1 (mapM_Some _ _ _) Hexs) as Hnodes.
  pose proof (records_of_nodes env w only_completed vs exs Hnodes) as Hpairs.
  assert (keys ((fun v => (name_of w v, records_of env w only_completed v)) <$> vs)
          = name_of w <$> vs) as Hkeys.
  { unfold keys. by rewrite <-list_fmap_compose. }
  unfold get_variant_records. rewrite Hvs. simpl. rewrite Hexs. simpl.
  rewrite Hpairs. split.
  - eexists. split; [done|]. split.
    + intros ->. apply Forall_forall. intros r (l & Hl & Hr)%elem_of_concat.
      apply OrderedDict_values_elem in Hl. unfold values in Hl.
      rewrite <-list_fmap_compose in Hl.
      apply list_elem_of_fmap in Hl as (v & -> & _). simpl in Hr.
      unfold records_of in Hr. destruct (heap w !! v) as [ex|]; simpl in Hr;
        [|by apply elem_of_nil in Hr].
      unfold get_records in Hr. by apply list_elem_of_filter in Hr as [? _].
    + intros Hnd. rewrite OrderedDict_NoDup by (by rewrite Hkeys).
      unfold values. by rewrite <-list_fmap_compose.
  - eexists. split; [done|]. intros Hnd. apply OrderedDict_NoDup. by rewrite Hkeys.
Qed.

(** ** Every node once *)

Lemma init_unique_parent f d c o n r w :
  wf_world w -> unique_parent (heap w) ->
  unique_parent (heap (Experiment_init f d c o n r w).2).
Proof.
  intros Hwf Hu. rewrite Experiment_init_eq. cbn [snd heap].
  assert (forall p ex k cc,
            (heap w ++ [mkExperiment n f d o c [] [] r]) !! p = Some ex ->
            (k, cc) ∈ variants ex -> heap w !! p = Some ex) as Hold.
  { intros p ex k cc Hp Hin.
    destruct (decide (p < length (heap w))%nat) as [Hlt|Hge].
    - by rewrite lookup_app_l in Hp.
    - assert (p = length (heap w)) as ->.
      { apply lookup_lt_Some in Hp. rewrite length_app in Hp. simpl in Hp. lia. }
      rewrite list_lookup_middle in Hp by done. injection Hp as <-.
      by apply elem_of_nil in Hin. }
  intros p1 ex1 n1 p2 ex2 n2 cc H1 Hin1 H2 Hin2.
  eapply Hu; [by eapply Hold | exact Hin1 | by eapply Hold | exact Hin2].
Qed.

Lemma created_unique_parent w self parent n kwargs is_root :
  wf_world w -> unique_parent (heap w) ->
  heap w !! self = Some parent -> contains (variants parent) n = false ->
  unique_parent (heap (created self parent n kwargs is_root w)).
Proof.
  intros Hwf Hu Hself Hfresh.
  (* a link of the new heap is a link of the old one, or the new link *)
  assert (forall p ex k cc,
            heap (created self parent n kwargs is_root w) !! p = Some ex ->
            (k, cc) ∈ variants ex ->
            (exists ex0, heap w !! p = Some ex0 /\ (k, cc) ∈ variants ex0 /\
                         (cc < length (heap w))%nat) \/
            (p = self /\ k = n /\ cc = length (heap w))) as Hlink.
  { intros p ex k cc Hp Hin.
    destruct (created_lookup_cases w self parent n kwargs is_root p ex Hself Hp)
      as [[-> ->]|[[Hne Hold]|[-> ->]]].
    - rewrite (created_variants w parent n Hfresh) in Hin.
      apply elem_of_app in Hin as [Hin|Hin].
      + left. exists parent. split_and!; [done|done|].
        pose proof (proj1 Hwf self parent Hself) as H. rewrite Forall_forall in H.
        apply (H _ Hin).
      + right. apply list_elem_of_singleton in Hin. by injection Hin as -> ->.
    - left. exists ex. split_and!; [done|done|].
      pose proof (proj1 Hwf p ex Hold) as H. rewrite Forall_forall in H.
      apply (H _ Hin).
    - by apply elem_of_nil in Hin. }
  intros p1 ex1 n1 p2 ex2 n2 cc H1 Hin1 H2 Hin2.
  destruct (Hlink _ _ _ _ H1 Hin1) as [(e1 & He1 & Hi1 & Hlt1)|(-> & -> & ->)];
    destruct (Hlink _ _ _ _ H2 Hin2) as [(e2 & He2 & Hi2 & Hlt2)|(-> & -> & Hcc)];
    try lia; [by eapply Hu | done].
Qed.

Lemma perform_unique_parent o w :
  wf_world w -> unique_parent (heap w) -> unique_parent (heap (perform o w).2).
Proof.
  intros Hwf Hu. destruct o as [f d n r|self args kwargs|self args kwargs|]; simpl.
  - unfold mbind, M_bind.
    pose proof (init_unique_parent (Function f) d None None n r w Hwf Hu) as H.
    rewrite Experiment_init_eq in *. done.
  - unfold mbind, M_bind, add_variant.
    destruct (create_variant_cases self args kwargs false w)
      as [[e ->]|(parent & n & Hself & Hfresh & _ & ->)]; simpl; [done|].
    by apply created_unique_parent.
  - unfold mbind, M_bind, add_root_variant.
    destruct (create_variant_cases self args kwargs true w)
      as [[e ->]|(parent & n & Hself & Hfresh & _ & ->)]; simpl; [done|].
    by apply created_unique_parent.
  - done.
Qed.

Lemma built_unique_parent ops : unique_parent (heap (perform_all ops init_world)).
Proof.
  assert (forall w, wf_world w -> unique_parent (heap w) ->
                    unique_parent (heap (perform_all ops w))) as H.
  { induction ops as [|o ops IH]; intros w Hwf Hu; [done|]. simpl.
    apply IH; [by apply perform_step | by apply perform_unique_parent]. }
  apply H; [apply init_world_wf|]. by intros p1 ex1 n1 p2 ex2 n2 c ?.
Qed.

(** The last link of a path down the tree. *)
Lemma descendant_last h b x :
  descendant h b x ->
  exists q exq n, h !! q = Some exq /\ (n, x) ∈ variants exq /\
                  (q = b \/ descendant h b q).
Proof.
  induction 1 as [p ex n c Hp Hin|p ex n c d Hp Hin Hd IH].
  - exists p, ex, n. by split_and!; [..|left].
  - destruct IH as (q & exq & m & Hq & Hm & [->|Hcq]).
    + exists c, exq, m. split_and!; [done|done|]. right. by eapply descendant_child.
    + exists q, exq, m. split_and!; [done|done|]. right. by eapply descendant_step.
Qed.

Lemma descendant_trans h a b c :
  descendant h a b -> descendant h b c -> descendant h a c.
Proof.
  induction 1 as [p ex n x Hp Hin|p ex n x d Hp Hin _ IH]; intros Hbc.
  - by eapply descendant_step.
  - eapply descendant_step; [done..|]. by apply IH.
Qed.

(** The nodes above a node are on one path. *)
Lemma ancestors_comparable h a x :
  unique_parent h -> descendant h a x ->
  forall b, descendant h b x -> a = b \/ descendant h a b \/ descendant h b a.
Proof.
  intros Hu. induction 1 as [p ex n c Hp Hin|p ex n c d Hp Hin _ IH]; intros b Hb.
  - destruct (descendant_last h b c Hb) as (q & exq & m & Hq & Hm & Hbq).
    destruct (Hu p ex n q exq m c Hp Hin Hq Hm) as [-> _].
    destruct Hbq as [->|Hbq]; [by left | right; by right].
  - destruct (IH b Hb) as [<-|[Hcb|Hbc]].
    + right. left. by eapply descendant_child.
    + right. left. by eapply descendant_step.
    + destruct (descendant_last h b c Hbc) as (q & exq & m & Hq & Hm & Hbq).
      destruct (Hu p ex n q exq m c Hp Hin Hq Hm) as [-> _].
      destruct Hbq as [->|Hbq]; [by left | right; by right].
Qed.

(** Two variants of one node have no node in common below them. *)
Lemma subtrees_disjoint h p ex n1 c1 n2 c2 x :
  wf_heap h -> unique_parent h ->
  h !! p = Some ex -> (n1, c1) ∈ variants ex -> (n2, c2) ∈ variants ex ->
  x = c1 \/ descendant h c1 x ->
  x = c2 \/ descendant h c2 x ->
  c1 = c2.
Proof.
  intros Hwf Hu Hp Hin1 Hin2 H1 H2.
  assert (forall n c n' c', (n, c) ∈ variants ex -> (n', c') ∈ variants ex ->
                            descendant h c' c -> False) as Hno.
  { intros n c n' c' Hc Hc' Hd.
    destruct (descendant_last h c' c Hd) as (q & exq & m & Hq & Hm & Hq').
    destruct (Hu p ex n q exq m c Hp Hc Hq Hm) as [<- _].
    pose proof (Hwf p ex Hp) as Hlt. rewrite Forall_forall in Hlt.
    pose proof (Hlt _ Hc') as [Hpc' _]. simpl in Hpc'.
    destruct Hq' as [->|Hq']; [lia|].
    pose proof (descendant_valid _ _ _ Hwf Hq'). lia. }
  destruct H1 as [->|Hd1], H2 as [Hx|Hd2].
  - done.
  - exfalso. by eapply (Hno n1 c1 n2 c2).
  - subst x. exfalso. by eapply (Hno n2 c2 n1 c1).
  - destruct (ancestors_comparable h c1 x Hu Hd1 c2 Hd2) as [?|[Hd|Hd]]; [done|..].
    + exfalso. by eapply (Hno n2 c2 n1 c1).
    + exfalso. by eapply (Hno n1 c1 n2 c2).
Qed.

Lemma variants_values_NoDup h p ex :
  unique_parent h -> h !! p = Some ex -> NoDup (keys (variants ex)) ->
  NoDup (values (variants ex)).
Proof.
  intros Hu Hp. unfold keys, values.
  assert (forall n1 n2 c, (n1, c) ∈ variants ex -> (n2, c) ∈ variants ex -> n1 = n2)
    as Hk by (intros n1 n2 c H1 H2; by destruct (Hu p ex n1 p ex n2 c Hp H1 Hp H2)).
  revert Hk. generalize (variants ex). intros d. induction d as [|[k v] d IH]; intros Hk.
  - intros _. apply NoDup_nil_2.
  - rewrite !fmap_cons, !NoDup_cons. simpl. intros [Hkd Hnd]. split.
    + intros ([k' v'] & Hv & Hin)%list_elem_of_fmap. simpl in Hv. subst v'.
      apply Hkd. apply list_elem_of_fmap. exists (k', v). split; [|done]. simpl.
      apply (Hk k k' v); [left | by right].
    + apply IH; [|done]. intros n1 n2 c H1 H2. apply (Hk n1 n2 c); by right.
Qed.

Lemma get_all_variants_NoDup h include_roots :
  wf_heap h -> unique_parent h ->
  (forall p ex, h !! p = Some ex -> NoDup (keys (variants ex))) ->
  forall fuel self include_self l,
    get_all_variants_fuel fuel h self include_roots include_self = Some l ->
    NoDup l.
Proof.
  intros Hwf Hu Hkeys. induction fuel as [|fuel IH]; intros self is_ l; [done|].
  rewrite get_all_variants_unfold.
  destruct (h !! self) as [ex|] eqn:Hex; simpl; [|done].
  destruct (mapM _ _) as [rest|] eqn:Hrest; simpl; [|done].
  intros [= <-]. apply mapM_Some in Hrest.
  (* what is below the variants *)
  assert (forall nv lc x, nv ∈ variants ex ->
            get_all_variants_fuel fuel h nv.2 include_roots true = Some lc ->
            x ∈ lc -> x = nv.2 \/ descendant h nv.2 x) as Hbelow.
  { intros nv lc x _ Hlc Hx.
    destruct (get_all_variants_sound _ _ _ _ _ _ _ Hlc Hx) as [[-> _]|?]; auto. }
  apply NoDup_app. split_and!.
  - destruct (is_ && _); [apply NoDup_singleton | apply NoDup_nil_2].
  - intros x Hx Hin.
    assert (x = self) as ->.
    { destruct (is_ && _); [by apply list_elem_of_singleton in Hx
                           | by apply elem_of_nil in Hx]. }
    apply elem_of_concat in Hin as (lc & Hlc & Hin).
    apply list_elem_of_lookup_1 in Hlc as [i Hi].
    destruct (Forall2_lookup_r _ _ _ _ _ Hrest Hi) as ([n c] & Hnv & Hc).
    apply list_elem_of_lookup_2 in Hnv.
    pose proof (Hwf self ex Hex) as Hlt. rewrite Forall_forall in Hlt.
    pose proof (Hlt _ Hnv) as [Hsc _]. simpl in Hsc, Hc.
    destruct (Hbelow (n, c) lc self Hnv Hc Hin) as [Heq|Hd]; simpl in *; [lia|].
    pose proof (descendant_valid _ _ _ Hwf Hd). lia.
  - pose proof (variants_values_NoDup h self ex Hu Hex (Hkeys self ex Hex)) as Hnd.
    assert (forall nv, nv ∈ variants ex -> nv ∈ variants ex) as Hsub by done.
    revert Hrest Hnd Hsub. unfold values.
    generalize (variants ex) at 1 2 3 as cs. intros cs Hcs.
    induction Hcs as [|nv lc cs rest' Hlc Hcs IHcs]; intros Hnd Hsub.
    + apply NoDup_nil_2.
    + rewrite fmap_cons, NoDup_cons in Hnd. destruct Hnd as [Hnv Hnd].
      simpl. apply NoDup_app. split_and!.
      * by eapply IH.
      * intros x Hx Hin. apply elem_of_concat in Hin as (lc' & Hlc' & Hin).
        apply list_elem_of_lookup_1 in Hlc' as [i Hi].
        destruct (Forall2_lookup_r _ _ _ _ _ Hcs Hi) as (nv' & Hnv' & Hc').
        apply list_elem_of_lookup_2 in Hnv'.
        apply Hnv. apply list_elem_of_fmap. exists nv'. split; [|done].
        destruct nv as [n c], nv' as [n' c']. simpl in *.
        eapply (subtrees_disjoint h self ex n c n' c' x); try done.
        -- apply (Hsub (n, c)). left.
        -- apply (Hsub (n', c')). by right.
        -- by eapply (Hbelow (n, c)); [apply Hsub; left|..].
        -- by eapply (Hbelow (n', c')); [apply Hsub; right|..].
      * apply IHcs; [done|]. intros nv' Hnv'. apply Hsub. by right.
Qed.

(** X17.  In a built store every node is the variant of at most one
    node, under one key, and the traversal of a node returns each node
    at most once. *)
Theorem traversal_has_no_duplicates ops self include_roots include_self :
  (self < length (heap (perform_all ops init_world)))%nat ->
  unique_parent (heap (perform_all ops init_world)) /\
  exists l,
    get_all_variants (perform_all ops init_world) self include_roots include_self
    = Some l /\
    NoDup l.
Proof.
  intros Hself. pose proof (built_wf ops) as [Hwf _].
  pose proof (built_unique_parent ops) as Hu. split; [done|].
  destruct (get_all_variants_total _ self include_roots include_self Hwf Hself)
    as [l Hl].
  exists l. split; [done|].
  eapply get_all_variants_NoDup; [done|done| |exact Hl].
  intros p ex Hp. by eapply (proj1 (proj2 (built_links ops))).
Qed.

(** ** Creating a variant twice, and finding a variant *)

Lemma perform_all_app ops ops' w :
  perform_all (ops ++ ops') w = perform_all ops' (perform_all ops w).
Proof. unfold perform_all. apply foldl_app. Qed.

(** X18.  After a variant was created under a resolved name, and after
    any further definitions, a creation on the same node that resolves
    to the same name, by a positional argument or by keyword arguments
    in any order, raises the duplicate assertion and leaves the store as
    it is. *)
Theorem duplicate_variant_rejected
    ops self args kwargs is_root ex w1 n ops' args' kwargs' is_root' :
  _create_experiment_variant self args kwargs is_root (perform_all ops init_world)
  = (Ok ex, w1) ->
  resolve_name args kwargs = Ok n ->
  (length args' <= 1)%nat ->
  resolve_name args' kwargs' = Ok n ->
  _create_experiment_variant self args' kwargs' is_root' (perform_all ops' w1)
  = (Raise (DuplicateVariantError n), perform_all ops' w1).
Proof.
  intros Hcreate Hname Hlen Hname'.
  pose proof (built_wf ops) as Hwf0.
  destruct (create_variant_cases self args kwargs is_root (perform_all ops init_world))
    as [[e He]|(parent & m & Hself & Hfresh & Hm & He)];
    rewrite He in Hcreate; [done|].
  injection Hcreate as <- <-. assert (m = n) as -> by congruence.
  pose proof (created_wf _ Hwf0 self parent Hself n Hfresh kwargs is_root) as Hwf1.
  destruct (perform_all_steps ops' _ Hwf1) as [_ Hext].
  destruct (Hext _ _ (created_parent _ self parent Hself n kwargs is_root))
    as (parent' & Hparent' & _ & _ & Hvars).
  rewrite create_variant_eq, bool_decide_eq_true_2, Hname', Hparent' by done.
  assert (contains (variants parent') n = true) as ->; [|done].
  apply contains_true. unfold keys. apply list_elem_of_fmap.
  exists (n, length (heap (perform_all ops init_world))). split; [done|].
  apply Hvars. rewrite (created_variants _ parent n Hfresh).
  apply elem_of_app. right. left.
Qed.

(** X19.  In a built store [get_variant] by name never changes the
    store; when it returns a node, this node is the variant of [self]
    under this name and its full name is the name of [self], a dot and
    the name; it raises an assertion exactly when [self] has no variant
    of this name. *)
Theorem get_variant_by_name ops self parent n :
  heap (perform_all ops init_world) !! self = Some parent ->
  (let w := perform_all ops init_world in
   match dict_get (variants parent) n with
   | Some c =>
       get_variant self [n] [] w = (Ok c, w) /\
       (n, c) ∈ variants parent /\
       name_of w c = name parent +:+ "." +:+ n
   | None =>
       (n ∉ keys (variants parent)) /\
       exists msg, get_variant self [n] [] w = (Raise (AssertionError msg), w)
   end).
Proof.
  intros Hself w. subst w. rewrite get_variant_eq, bool_decide_eq_true_2, Hself by done.
  destruct (dict_get (variants parent) n) as [c|] eqn:Hget.
  - apply dict_get_Some in Hget. split_and!; [done|done|].
    destruct (built_links ops) as (Hlinks & _).
    destruct (Hlinks self parent n c Hself Hget) as (child & Hc & Hname & _).
    unfold name_of. by rewrite Hc.
  - split; [by apply dict_get_None | by eexists].
Qed.

(** X20.  Clearing the library makes every lookup fail and no name
    loadable, and leaves the nodes as they are: the variants that
    [get_variant] finds and the traversals are unchanged. *)
Theorem clear_keeps_the_trees w :
  let w' := (clear_all_experiments w).2 in
  (forall id,
     load_experiment id w' = (Raise (ExperimentNotFoundError id), w') /\
     is_experiment_loadable id w' = (Ok false, w')) /\
  heap w' = heap w /\
  (forall self args kwargs,
     (get_variant self args kwargs w').1 = (get_variant self args kwargs w).1) /\
  (forall self include_roots include_self,
     get_all_variants w' self include_roots include_self
     = get_all_variants w self include_roots include_self).
Proof.
  intros w'. subst w'. split_and!; [|done| |done].
  - intros id. by rewrite load_experiment_eq.
  - intros self args kwargs. rewrite !get_variant_eq.
    change (heap (clear_all_experiments w).2) with (heap w).
    destruct args as [|n [|m args]]; [| |done].
    + destruct (_kwargs_to_experiment_name kwargs) as [n|e]; [|done].
      destruct (heap w !! self) as [parent|]; [|done].
      by destruct (dict_get (variants parent) n).
    + destruct (bool_decide (length kwargs = 0%nat)); [|done].
      destruct (heap w !! self) as [parent|]; [|done].
      by destruct (dict_get (variants parent) n).
Qed.

(** ** Instances *)

Lemma get_variant_after_creation_witness :
  let w := perform_all [NewExperiment "f" None "A" false] init_world in
  exists w',
    _create_experiment_variant 0%nat [] [("a", PyInt 1)] false w = (Ok 1%nat, w') /\
    get_variant 0%nat [] [("a", PyInt 1)] w' = (Ok 1%nat, w').
Proof.
  intros w. eexists. split; [reflexivity|].
  refine (proj1 (get_variant_after_creation 0%nat [] [("a", PyInt 1)] false w
                   1%nat _ _) eq_refl).
  reflexivity.
Defined.

Lemma variant_creation_effect_witness :
  let w := perform_all [NewExperiment "f" None "A" false] init_world in
  exists w',
    _create_experiment_variant 0%nat ["big"] [("a", PyInt 1)] false w = (Ok 1%nat, w') /\
    exists parent n,
      heap w !! 0%nat = Some parent /\
      resolve_name ["big"] [("a", PyInt 1)] = Ok n /\
      1%nat = length (heap w) /\
      heap w' !! 1%nat = Some (variant_node parent n [("a", PyInt 1)] false) /\
      variants <$> heap w' !! 0%nat = Some (variants parent ++ [(n, 1%nat)]) /\
      load_experiment (name parent +:+ "." +:+ n) w' = (Ok 1%nat, w') /\
      is_experiment_loadable (name parent +:+ "." +:+ n) w' = (Ok true, w').
Proof.
  intros w. eexists. split; [reflexivity|].
  apply (variant_creation_effect 0%nat ["big"] [("a", PyInt 1)] false w). reflexivity.
Defined.

Lemma variants_named_after_parent_witness :
  let ops := [NewExperiment "f" (Some "show") "A" false; AddVariant 0%nat ["b"] []] in
  exists ex,
    heap (perform_all ops init_world) !! 0%nat = Some ex /\
    ("b", 1%nat) ∈ variants ex /\
    NoDup (keys (variants ex)) /\
    exists child,
      heap (perform_all ops init_world) !! 1%nat = Some child /\
      name child = name ex +:+ "." +:+ "b" /\
      root_function_name (function child) = root_function_name (function ex) /\
      display_function child = display_function ex /\
      one_liner_function child = display_function ex /\
      comparison_function child = display_function ex /\
      _one_liner_results child = _display_function ex /\
      _comparison_function child = _display_function ex.
Proof.
  intros ops. eexists. split; [reflexivity|]. split; [cbn; left|].
  apply (variants_named_after_parent ops 0%nat _ "b" 1%nat); [reflexivity | cbn; left].
Defined.

Lemma traversal_without_roots_witness :
  let ops := [NewExperiment "f" None "A" false; AddRootVariant 0%nat ["r"] [];
              AddVariant 1%nat ["x"] []] in
  (0 < length (heap (perform_all ops init_world)))%nat /\
  exists l,
    get_all_variants (perform_all ops init_world) 0%nat true true = Some l /\
    get_all_variants (perform_all ops init_world) 0%nat false true
    = Some (filter (fun r => is_root_at (heap (perform_all ops init_world)) r = false) l).
Proof.
  intros ops. split; [simpl; lia|].
  apply (traversal_without_roots ops 0%nat true). simpl. lia.
Defined.

Lemma traversal_is_subtree_witness :
  let ops := [NewExperiment "f" None "A" false; AddRootVariant 0%nat ["r"] [];
              AddVariant 1%nat ["x"] []] in
  let w := perform_all ops init_world in
  (0 < length (heap w))%nat /\
  exists l,
    get_all_variants w 0%nat false true = Some l /\
    (forall r,
       r ∈ l <->
       ((r = 0%nat /\ true = true) \/ descendant (heap w) 0%nat r) /\
       (is_root_at (heap w) r = false \/ false = true)) /\
    (true = true ->
     is_root_at (heap w) 0%nat = false \/ false = true ->
     head l = Some 0%nat).
Proof.
  intros ops w. split; [simpl; lia|].
  apply (traversal_is_subtree ops 0%nat false true). simpl. lia.
Defined.

Lemma run_normal_completion_witness :
  let w := perform_all [NewExperiment "succeeds" (Some "show") "A" false] init_world in
  let ex := mkExperiment "A" (Function "succeeds") (Some "show") None None [] [] false in
  let a := bind_run [] in
  heap w !! 0%nat = Some ex /\
  call example_env (function ex) (effective_test_mode a w) = Ok (PyInt 42) /\
  exists w' r,
    run example_env 0%nat a w = (Ok (length (records w)), w') /\
    record_of_run w w' = Some r /\
    get_status r = Some FINISHED /\
    saved_result r = Some (PyInt 42) /\
    error_trace r = None /\
    notes r = _notes ex /\
    _TEST_MODE w' = _TEST_MODE w /\
    printed w w'
    = [LoggerInfo (start_line ex (effective_test_mode a w))]
      ++ match display_call ex (display_results a) with
         | Some d => [Displayed d (PyInt 42)]
         | None => []
         end
      ++ [LoggerInfo (done_line ex (effective_test_mode a w))].
Proof.
  intros w ex a. split; [reflexivity|]. split; [reflexivity|].
  apply (run_normal_completion example_env w 0%nat ex a (PyInt 42));
    [reflexivity | reflexivity | reflexivity | intros d _; reflexivity].
Defined.

Lemma run_record_name_and_location_witness :
  let w := perform_all [NewExperiment "fails" None "A" false] init_world in
  let ex := mkExperiment "A" (Function "fails") None None None [] [] false in
  let a := bind_run [("test_mode", PyBool true)] in
  heap w !! 0%nat = Some ex /\
  clashes (experiment_record_kwargs a) = false /\
  exists r,
    record_of_run w (run example_env 0%nat a w).2 = Some r /\
    record_name r = name ex /\
    use_temp_dir r = negb (truthy (effective_keep_record a w)) /\
    effective_keep_record a w
    = match keep_record a, keep_record_by_default w with
      | PyNone, PyNone => PyBool (negb (truthy (effective_test_mode a w)))
      | PyNone, by_default => by_default
      | given, _ => given
      end.
Proof.
  intros w ex a. split; [reflexivity|]. split; [reflexivity|].
  apply (run_record_name_and_location example_env w 0%nat ex a); reflexivity.
Defined.

Lemma run_status_and_metadata_witness :
  let w := perform_all [NewExperiment "exits" None "A" false] init_world in
  let ex := mkExperiment "A" (Function "exits") None None None [] [] false in
  let a := bind_run [] in
  heap w !! 0%nat = Some ex /\
  exists r,
    record_of_run w (run example_env 0%nat a w).2 = Some r /\
    get_status r
    = Some match call example_env (function ex) (effective_test_mode a w) with
           | Ok _ => FINISHED
           | Raise e =>
               if isinstance_KeyboardInterrupt e then STOPPED
               else if isinstance_Exception e then ERROR else STARTED
           end.
Proof.
  intros w ex a. split; [reflexivity|].
  destruct (run_status_and_metadata example_env w 0%nat ex a eq_refl eq_refl)
    as (r & Hr & Hstatus & _).
  exists r. split; [exact Hr | exact Hstatus].
Defined.

Lemma test_mode_after_run_witness :
  let w := perform_all [NewExperiment "fails" None "A" false] init_world in
  let ex := mkExperiment "A" (Function "fails") None None None [] [] false in
  let a := bind_run [("test_mode", PyBool true)] in
  heap w !! 0%nat = Some ex /\
  clashes (experiment_record_kwargs a) = false /\
  _TEST_MODE w = PyBool false /\
  _TEST_MODE (run example_env 0%nat a w).2 = PyBool true /\
  (test_mode (bind_run []) = PyNone ->
   _TEST_MODE (run example_env 0%nat (bind_run []) w).2 = _TEST_MODE w).
Proof.
  intros w ex a. split; [reflexivity|]. split; [reflexivity|]. split; [reflexivity|].
  split.
  - destruct (test_mode_after_run example_env w 0%nat ex a eq_refl eq_refl)
      as (H & _ & _).
    exact H.
  - exact (proj2 (proj2 (test_mode_after_run example_env w 0%nat ex (bind_run [])
                           eq_refl eq_refl))).
Defined.

Lemma test_uses_temporary_record_witness :
  let w := perform_all [NewExperiment "succeeds" None "A" false] init_world in
  contains ([] : list (string * pyval)) "test_mode" = false /\
  clashes (experiment_record_kwargs (bind_run [("test_mode", PyBool true)])) = false /\
  keep_record_by_default w = PyNone /\
  exists r,
    record_of_run w (test example_env 0%nat [] w).2 = Some r /\
    use_temp_dir r = true.
Proof.
  intros w. split; [reflexivity|]. split; [reflexivity|]. split; [reflexivity|].
  apply (test_uses_temporary_record example_env w 0%nat
           (mkExperiment "A" (Function "succeeds") None None None [] [] false) []);
    reflexivity.
Defined.

Lemma capture_collects_fresh_registrations_witness :
  let w := perform_all [NewExperiment "f" None "A" false] init_world in
  let ops := [NewExperiment "g" None "B" false; AddVariant 1%nat ["x"] []] in
  capture_created_experiments (block ops) w
  = (Ok (registered ops w), perform_all ops w) /\
  registered ops w = [1; 2]%nat.
Proof.
  intros w ops. split; [|reflexivity].
  apply (capture_collects_fresh_registrations ops w).
  split; [done|]. split.
  { intros ex w' H _. injection H as <- <-.
    apply (bool_decide_unpack _). vm_compute. exact I. }
  split; [done|]. split; [|exact I].
  intros ex w' H _. injection H as <- <-.
  apply (bool_decide_unpack _). vm_compute. exact I.
Defined.

Lemma all_variant_records_witness :
  let ops := [NewExperiment "f" None "A" false; AddVariant 0%nat ["b"] []] in
  let w := perform_all ops init_world in
  (0 < length (heap w))%nat /\
  exists vs,
    get_all_variants w 0%nat false true = Some vs /\
    (exists l,
        get_variant_records example_env w 0%nat true false true
        = Some (Ok (FlatAll l)) /\
        (true = true -> Forall (fun r => get_status r = Some FINISHED) l) /\
        (NoDup (name_of w <$> vs) ->
         l = concat (records_of example_env w true <$> vs))) /\
    (exists d,
        get_variant_records example_env w 0%nat true false false
        = Some (Ok (DictAll d)) /\
        (NoDup (name_of w <$> vs) ->
         d = (fun v => (name_of w v, records_of example_env w true v)) <$> vs)).
Proof.
  intros ops w. split; [simpl; lia|].
  apply (all_variant_records example_env ops 0%nat true). simpl. lia.
Defined.

Lemma traversal_has_no_duplicates_witness :
  let ops := [NewExperiment "f" None "A" false; AddVariant 0%nat ["b"] [];
              AddRootVariant 0%nat ["r"] []; AddVariant 2%nat ["x"] []] in
  (0 < length (heap (perform_all ops init_world)))%nat /\
  unique_parent (heap (perform_all ops init_world)) /\
  exists l,
    get_all_variants (perform_all ops init_world) 0%nat true true = Some l /\
    NoDup l.
Proof.
  intros ops. split; [simpl; lia|].
  apply (traversal_has_no_duplicates ops 0%nat true true). simpl. lia.
Defined.

Lemma duplicate_variant_rejected_witness :
  let w := perform_all [NewExperiment "f" None "A" false] init_world in
  exists w1,
    _create_experiment_variant 0%nat [] [("a", PyInt 1); ("b", PyInt 2)] false w
    = (Ok 1%nat, w1) /\
    _create_experiment_variant 0%nat [] [("b", PyInt 2); ("a", PyInt 1)] true
      (perform_all [] w1)
    = (Raise (DuplicateVariantError "a=1,b=2"), perform_all [] w1).
Proof.
  intros w. eexists. split; [reflexivity|].
  apply (duplicate_variant_rejected [NewExperiment "f" None "A" false] 0%nat
           [] [("a", PyInt 1); ("b", PyInt 2)] false 1%nat _ "a=1,b=2"
           [] [] [("b", PyInt 2); ("a", PyInt 1)] true);
    [reflexivity | reflexivity | simpl; lia | reflexivity].
Defined.

Lemma get_variant_by_name_witness :
  let ops := [NewExperiment "f" None "A" false; AddVariant 0%nat ["b"] []] in
  let w := perform_all ops init_world in
  exists parent,
    heap w !! 0%nat = Some parent /\
    get_variant 0%nat ["b"] [] w = (Ok 1%nat, w) /\
    name_of w 1%nat = name parent +:+ "." +:+ "b".
Proof.
  intros ops w. eexists. split; [reflexivity|].
  pose proof (get_variant_by_name ops 0%nat _ "b" eq_refl) as H.
  cbn in H. destruct H as (H1 & _ & H3). split; [exact H1 | exact H3].
Defined.
